(** * Activate Report Summarizer: the logical core of [app.py]

    A shallow embedding of the column normalizer, the column guesser, the
    signal extractor and the segment calculator of [app.py], together with
    the properties its specification states about them.

    Modelling conventions.
    - A Python [str] is a [string]: a sequence of 8-bit characters.  The
      character operations ([str.lower], [str.strip], the class [[^a-z0-9]])
      are the ASCII ones; characters above 127 are letters of no case and no
      digits, so they are left alone by [lower] and removed by the class.
    - A cell of a pandas column is a [value]: a Python [bool], [int], [float],
      or [str]; a missing cell is the float NaN, as [read_csv] and
      [read_excel] produce it.  An [int] is an integer of any size and a
      finite float is an exact rational: the 64-bit limits of numpy and the
      rounding of float64 are outside the model.
    - A [Series] carries its [dtype] next to its cells, because
      [to_bool_series] looks at it.
    - The Streamlit script is a function to an [outcome]: what the page ends
      up showing, or the exception that ended the run. *)

From Stdlib Require Import Ascii String QArith.
From stdpp Require Import base option list strings numbers pretty.

Local Open Scope string_scope.

(** ** Python strings *)

Module PyStr.

Definition code (c : ascii) : N := N_of_ascii c.

Definition is_upper (c : ascii) : bool := (65 <=? code c)%N && (code c <=? 90)%N.
Definition is_lower (c : ascii) : bool := (97 <=? code c)%N && (code c <=? 122)%N.
Definition is_digit (c : ascii) : bool := (48 <=? code c)%N && (code c <=? 57)%N.
Definition is_alnum (c : ascii) : bool := is_upper c || is_lower c || is_digit c.

(** [str.isspace] on the ASCII range: tab, newline, vertical tab, form feed,
    carriage return, the four separators 28..31 and the space. *)
Definition is_space (c : ascii) : bool :=
  ((9 <=? code c)%N && (code c <=? 13)%N)
  || ((28 <=? code c)%N && (code c <=? 32)%N).

Definition lower_char (c : ascii) : ascii :=
  if is_upper c then ascii_of_N (code c + 32) else c.

(** [s.lower()] *)
Fixpoint lower (s : string) : string :=
  match s with
  | "" => ""
  | String c s' => String (lower_char c) (lower s')
  end.

Fixpoint lstrip (s : string) : string :=
  match s with
  | "" => ""
  | String c s' => if is_space c then lstrip s' else s
  end.

Fixpoint rstrip (s : string) : string :=
  match s with
  | "" => ""
  | String c s' =>
      match rstrip s' with
      | "" => if is_space c then "" else String c ""
      | r => String c r
      end
  end.

(** [s.strip()] *)
Definition strip (s : string) : string := rstrip (lstrip s).

Fixpoint all_chars (p : ascii → bool) (s : string) : bool :=
  match s with
  | "" => true
  | String c s' => p c && all_chars p s'
  end.

Fixpoint keep (p : ascii → bool) (s : string) : string :=
  match s with
  | "" => ""
  | String c s' => if p c then String c (keep p s') else keep p s'
  end.

(** [k in n] for two strings: [k] occurs in [n] as a contiguous block. *)
Fixpoint contains (n k : string) : bool :=
  String.prefix k n ||
  match n with
  | "" => false
  | String _ n' => contains n' k
  end.

End PyStr.

(** ** Column normalizer *)

(** The characters a-z and 0-9, and the character class [[^a-z0-9]]. *)
Definition az09 (c : ascii) : bool := PyStr.is_lower c || PyStr.is_digit c.
Definition not_az09 (c : ascii) : bool := negb (az09 c).

(** [re.sub(r"[^a-z0-9]+", "", s)]: the scanner copies the characters outside
    the class; when it meets one inside the class it is in a match, which
    extends over the whole run and is replaced by the empty string. *)
Fixpoint re_sub_not_az09 (s : string) : string :=
  match s with
  | "" => ""
  | String c s' =>
      if not_az09 c then in_match_not_az09 s' else String c (re_sub_not_az09 s')
  end
with in_match_not_az09 (s : string) : string :=
  match s with
  | "" => ""
  | String c s' =>
      if not_az09 c then in_match_not_az09 s' else String c (re_sub_not_az09 s')
  end.

Definition normalize (s : string) : string :=
  re_sub_not_az09 (PyStr.lower (PyStr.strip s)).

(** ** Column guesser *)

(** A Python dict keeps its keys in the order of their first insertion;
    assigning to a key that is present replaces the value in place. *)
Fixpoint dict_set {V} (d : list (string * V)) (k : string) (v : V)
    : list (string * V) :=
  match d with
  | [] => [(k, v)]
  | (k', v') :: d' =>
      if decide (k' = k) then (k', v) :: d' else (k', v') :: dict_set d' k v
  end.

Fixpoint dict_get {V} (d : list (string * V)) (k : string) : option V :=
  match d with
  | [] => None
  | (k', v) :: d' => if decide (k' = k) then Some v else dict_get d' k
  end.

(** [{c: normalize(c) for c in columns}] *)
Definition norm_map (columns : list string) : list (string * string) :=
  foldl (λ d c, dict_set d c (normalize c)) [] columns.

(** [any(k in n for k in keywords)] *)
Definition any_keyword_in (keywords : list string) (n : string) : bool :=
  existsb (λ k, PyStr.contains n k) keywords.

(** The [for c, n in norm_map.items()] loop. *)
Fixpoint guess_loop (items : list (string * string)) (keywords : list string)
    : option string :=
  match items with
  | [] => None
  | (c, n) :: rest =>
      if any_keyword_in keywords n then Some c else guess_loop rest keywords
  end.

Definition guess_column (columns keywords : list string) : option string :=
  guess_loop (norm_map columns) keywords.

(** The keyword list the script passes for the Calls Attempted role. *)
Definition call_attempted_keywords : list string :=
  ["attemptedcall"; "callsattempted"; "callattempt"; "dialed"; "callsdialed";
   "attempt"; "outboundattempt"].

(** ** Cells, columns and data frames *)

(** A Python float: a finite value, an infinity or NaN. *)
Inductive pyfloat : Type :=
| FFin (q : Q)
| FPosInf
| FNegInf
| FNaN.

(** A cell of a column of dtype [object]. *)
Inductive value : Type :=
| VBool (b : bool)
| VInt (n : Z)
| VFloat (x : pyfloat)
| VStr (s : string).

(** A pandas Series with its dtype: the arrays of dtype [bool], [int64] and
    [float64] hold cells of one type, and only a float or an object array
    has room for a missing cell. *)
Inductive Series : Type :=
| BoolSeries (l : list bool)
| Int64Series (l : list Z)
| Float64Series (l : list pyfloat)
| ObjectSeries (l : list value).

Definition cells (s : Series) : list value :=
  match s with
  | BoolSeries l => VBool <$> l
  | Int64Series l => VInt <$> l
  | Float64Series l => VFloat <$> l
  | ObjectSeries l => l
  end.

Definition dtype_is_bool (s : Series) : bool :=
  match s with BoolSeries _ => true | _ => false end.

(** [pd.isna] on a cell. *)
Definition isna (v : value) : bool :=
  match v with
  | VFloat FNaN => true
  | _ => false
  end.

Record DataFrame : Type := {
  df_len : nat;                          (* the length of the index *)
  df_columns : list (string * Series);   (* label and column, in file order *)
}.

Definition df_labels (df : DataFrame) : list string := (df_columns df).*1.

(** Labels are unique and every column has one cell per row. *)
Definition df_wf (df : DataFrame) : Prop :=
  NoDup (df_labels df) ∧
  Forall (λ cs, length (cells cs.2) = df_len df) (df_columns df).

(** [df.empty]: one of the two axes has length 0. *)
Definition df_empty (df : DataFrame) : bool :=
  bool_decide (df_len df = 0) || bool_decide (df_columns df = []).

(** ** [pd.to_numeric(s, errors="coerce")] *)

(** The text of a number, as the conversion of pandas reads it: optional
    blanks, an optional sign, decimal digits with an optional point (at least
    one digit in all), an optional exponent, optional blanks; or one of the
    names of NaN and of the infinities, in any case.  Anything else is not a
    number, which [errors="coerce"] turns into NaN. *)
Module Numeric.

(** The blanks of C's [isspace]. *)
Definition c_isspace (c : ascii) : bool :=
  ((9 <=? PyStr.code c)%N && (PyStr.code c <=? 13)%N) || (PyStr.code c =? 32)%N.

Fixpoint skip_blanks (s : string) : string :=
  match s with
  | "" => ""
  | String c s' => if c_isspace c then skip_blanks s' else s
  end.

Definition digit_of (c : ascii) : Z := Z.of_N (PyStr.code c) - 48.

(** Reads the longest run of digits: the number read so far, how many
    digits were read, and the rest of the text. *)
Fixpoint digits (acc : Z) (n : nat) (s : string) : Z * nat * string :=
  match s with
  | "" => (acc, n, "")
  | String c s' =>
      if PyStr.is_digit c then digits (10 * acc + digit_of c) (S n) s'
      else (acc, n, s)
  end.

(** An optional sign: whether it is a minus, and the rest. *)
Definition sign (s : string) : bool * string :=
  match s with
  | String "-" s' => (true, s')
  | String "+" s' => (false, s')
  | _ => (false, s)
  end.

Definition signed (neg : bool) (z : Z) : Z := if neg then (- z)%Z else z.

(** An optional exponent: its value and the rest, or [None] when the
    letter is followed by no digit. *)
Definition exponent (s : string) : option (Z * string) :=
  match s with
  | String c s' =>
      if bool_decide (c = "e"%char ∨ c = "E"%char) then
        let '(neg, s1) := sign s' in
        let '(e, n, s2) := digits 0 0 s1 in
        if bool_decide (n = 0) then None else Some (signed neg e, s2)
      else Some (0%Z, s)
  | "" => Some (0%Z, "")
  end.

Definition decimal (s : string) : option Q :=
  let '(neg, s0) := sign (skip_blanks s) in
  let '(ip, ni, s1) := digits 0 0 s0 in
  let '(m, nf, s2) :=
    match s1 with
    | String "." s1' => digits ip 0 s1'
    | _ => (ip, 0, s1)
    end in
  if bool_decide (ni + nf = 0) then None
  else
    match exponent s2 with
    | Some (e, rest) =>
        if bool_decide (skip_blanks rest = "")
        then Some (inject_Z (signed neg m) * Qpower (inject_Z 10) (e - Z.of_nat nf))%Q
        else None
    | None => None
    end.

Definition special (s : string) : option pyfloat :=
  let w := PyStr.lower s in
  if bool_decide (w = "nan") then Some FNaN
  else if bool_decide (w ∈ ["inf"; "+inf"; "infinity"; "+infinity"]) then Some FPosInf
  else if bool_decide (w ∈ ["-inf"; "-infinity"]) then Some FNegInf
  else None.

(** The conversion of one string, NaN when it is not the text of a number. *)
Definition of_string (s : string) : pyfloat :=
  match special s with
  | Some x => x
  | None => from_option FFin FNaN (decimal s)
  end.

(** The conversion of one cell. *)
Definition of_value (v : value) : pyfloat :=
  match v with
  | VBool b => FFin (if b then 1 else 0)
  | VInt n => FFin (inject_Z n)
  | VFloat x => x
  | VStr s => of_string s
  end.

Definition notna (x : pyfloat) : bool :=
  match x with FNaN => false | _ => true end.

(** [x.fillna(0)] on one cell *)
Definition fillna0 (x : pyfloat) : pyfloat :=
  match x with FNaN => FFin 0 | _ => x end.

(** [x > 0] *)
Definition gt0 (x : pyfloat) : bool :=
  match x with
  | FFin q => negb (Qle_bool q 0)
  | FPosInf => true
  | FNegInf | FNaN => false
  end.

End Numeric.

Definition to_numeric (s : Series) : list pyfloat := Numeric.of_value <$> cells s.

(** ** Signal extractor *)

(** [str(v)].  The digits Python prints for a finite float depend on its
    float64 rounding, which is outside the model: a finite float is printed
    as a fraction, and [categorical_has_no_number] below shows that
    [to_bool_series] never prints one. *)
Definition py_str (v : value) : string :=
  match v with
  | VBool true => "True"
  | VBool false => "False"
  | VInt n => pretty n
  | VFloat (FFin q) => pretty (Qnum q) +:+ "/" +:+ pretty (Zpos (Qden q))
  | VFloat FPosInf => "inf"
  | VFloat FNegInf => "-inf"
  | VFloat FNaN => "nan"
  | VStr s => s
  end.

Definition true_set : list string :=
  ["yes"; "y"; "true"; "t"; "1"; "connected"; "done"; "received"; "delivered";
   "answer"; "answered"; "success"].

(** [x in true_set] *)
Definition isin (x : string) (set : list string) : bool := bool_decide (x ∈ set).

Definition to_bool_series (s : Series) : list bool :=
  match s with
  | BoolSeries l => l       (* [s.fillna(False)]: a bool array has no missing cell *)
  | _ =>
      let snum := to_numeric s in
      if existsb Numeric.notna snum then
        (λ x, Numeric.gt0 (Numeric.fillna0 x)) <$> snum
      else
        let str_vals := (λ v, PyStr.lower (PyStr.strip (py_str v))) <$> cells s in
        (λ x, isin x true_set) <$> str_vals
  end.

(** ** Duplicated rows *)

Definition float_eqb (x y : pyfloat) : bool :=
  match x, y with
  | FFin p, FFin q => Qeq_bool p q
  | FPosInf, FPosInf | FNegInf, FNegInf | FNaN, FNaN => true
  | _, _ => false
  end.

(** The number a cell is compared as: Python has [True == 1 == 1.0]. *)
Definition num_of (v : value) : option pyfloat :=
  match v with
  | VBool b => Some (FFin (if b then 1 else 0))
  | VInt n => Some (FFin (inject_Z n))
  | VFloat x => Some x
  | VStr _ => None
  end.

(** Equality of two cells as keys of the hash table of pandas: Python's
    [==], except that NaN is equal to NaN. *)
Definition val_eqb (a b : value) : bool :=
  match a, b with
  | VStr s, VStr t => bool_decide (s = t)
  | _, _ =>
      match num_of a, num_of b with
      | Some x, Some y => float_eqb x y
      | _, _ => false
      end
  end.

(** The hash table of the scan: the distinct values met so far, each with
    the row where it was met first. *)
Fixpoint table_get (table : list (value * nat)) (v : value) : option nat :=
  match table with
  | [] => None
  | (k, j) :: table' => if val_eqb k v then Some j else table_get table' v
  end.

(** [duplicated(keep=False)]: one pass over the rows; a value that is in the
    table marks its first row and the current row, a new value is entered
    with the current row. *)
Fixpoint duplicated_loop (vals : list value) (i : nat)
    (table : list (value * nat)) (out : list bool) : list bool :=
  match vals with
  | [] => out
  | v :: rest =>
      match table_get table v with
      | Some j => duplicated_loop rest (S i) table (<[i:=true]> (<[j:=true]> out))
      | None => duplicated_loop rest (S i) ((v, i) :: table) (<[i:=false]> out)
      end
  end.

Definition duplicated (vals : list value) : list bool :=
  duplicated_loop vals 0 [] (replicate (length vals) false).

(** ** Segment calculator *)

(** The result of a run of the script from the point where the file has been
    read: it ran to the end, it stopped the page after a message, or an
    exception ended it. *)
Inductive message : Type :=
| Warning (text : string)
| Error (text : string).

Inductive exn : Type :=
| KeyError (key : string).

Inductive outcome (A : Type) : Type :=
| Done (a : A)
| Stopped (m : message)
| Raised (e : exn).
Arguments Done {A} a.
Arguments Stopped {A} m.
Arguments Raised {A} e.

Definition bind {A B} (c : outcome A) (k : A → outcome B) : outcome B :=
  match c with
  | Done a => k a
  | Stopped m => Stopped m
  | Raised e => Raised e
  end.

Notation "x ←! c ; k" := (bind c (λ x, k))
  (at level 20, c at level 100, k at level 200, right associativity,
   format "x  ←!  c ;  '/' k").

(** [try: ... except Exception as e: st.error(f"{prefix}{e}"); st.stop()] *)
Definition try_or_stop {A} (prefix : string) (c : outcome A) : outcome A :=
  match c with
  | Raised (KeyError k) => Stopped (Error (prefix +:+ "'" +:+ k +:+ "'"))
  | _ => c
  end.

(** [df[label]] *)
Definition getitem (df : DataFrame) (label : string) : outcome Series :=
  match dict_get (df_columns df) label with
  | Some s => Done s
  | None => Raised (KeyError label)
  end.

(** Element-wise [|], [&] and [~] of boolean columns over one index. *)
Definition s_or (a b : list bool) : list bool := zip_with orb a b.
Definition s_and (a b : list bool) : list bool := zip_with andb a b.
Definition s_not (a : list bool) : list bool := negb <$> a.

(** [int(m.sum())] *)
Definition s_sum (m : list bool) : nat :=
  sum_list_with (λ b : bool, if b then 1 else 0) m.

(** The four columns the user selected; a select box gives the sentinel or
    one of the labels of the data frame. *)
Record Selection : Type := {
  col_call_attempted : string;
  col_call_connected : string;
  col_wa_sent : string;
  col_wa_received : string;
}.

Definition unselected : string := "-- select --".

Definition required (sel : Selection) : list (string * string) :=
  [("Calls Attempted", col_call_attempted sel);
   ("Calls Connected", col_call_connected sel);
   ("WhatsApp Sent", col_wa_sent sel);
   ("WhatsApp Received", col_wa_received sel)].

(** [[name for name, sel in required.items() if sel == "-- select --"]] *)
Definition missing (sel : Selection) : list string :=
  (filter (λ p, p.2 = unselected) (required sel)).*1.

(** [sep.join(l)] *)
Fixpoint join (sep : string) (l : list string) : string :=
  match l with
  | [] => ""
  | [x] => x
  | x :: l' => x +:+ sep +:+ join sep l'
  end.

(** The four boolean columns. *)
Record Signals : Type := {
  call_attempted : list bool;
  call_connected : list bool;
  wa_sent : list bool;
  wa_received : list bool;
}.

Definition booleans (df : DataFrame) (sel : Selection) : outcome Signals :=
  try_or_stop "Error interpreting columns: "
    (ca ←! getitem df (col_call_attempted sel);
     cc ←! getitem df (col_call_connected sel);
     ws ←! getitem df (col_wa_sent sel);
     wr ←! getitem df (col_wa_received sel);
     Done {| call_attempted := to_bool_series ca;
             call_connected := to_bool_series cc;
             wa_sent := to_bool_series ws;
             wa_received := to_bool_series wr |}).

(** [df[df.duplicated(subset=['Phone Number'], keep=False)].shape[0]] *)
Definition duplicate_leads (df : DataFrame) : outcome nat :=
  phone ←! getitem df "Phone Number";
  Done (s_sum (duplicated (cells phone))).

Definition metrics (df : DataFrame) (b : Signals) : outcome (list (string * nat)) :=
  let call_attempted := call_attempted b in
  let call_connected := call_connected b in
  let wa_sent := wa_sent b in
  let wa_received := wa_received b in
  let wa_attempted := wa_sent in
  let wa_connected := wa_received in
  let m1 := s_or call_connected wa_connected in
  let m2 := s_and call_connected (s_not wa_connected) in
  let m3 := s_and wa_connected (s_not call_connected) in
  let m4 := s_not call_attempted in
  let m5 := s_not wa_attempted in
  let m6 := s_and (s_not call_attempted) (s_not wa_attempted) in
  let m7 := s_and call_connected wa_connected in
  let m8 := s_and (s_and call_connected wa_sent) (s_not wa_received) in
  let m9 := s_and (s_not call_attempted) wa_attempted in
  let m10 := s_and call_attempted (s_not wa_attempted) in
  let total_leads := df_len df in
  duplicate_leads ←! duplicate_leads df;
  Done
    [("Leads Connected by Either WhatsApp or Call (Connectivity)", s_sum m1);
     ("Only Connected on Calls", s_sum m2);
     ("Only Connected on Calls and WhatsApp Also Got Attempted", s_sum m8);
     ("Only Connected on WhatsApp", s_sum m3);
     ("Leads Connected on Both WhatsApp and Call", s_sum m7);
     ("Leads Where No WhatsApp and Calls Were Attempted (Call & WhatsApp = 0)", s_sum m6);
     ("No Calls Attempted", s_sum m4);
     ("No Calls Attempted but WhatsApp Attempted", s_sum m9);
     ("No WhatsApp Attempted", s_sum m5);
     ("No WhatsApp but Calls Attempted", s_sum m10);
     ("Total Leads", total_leads);
     ("Duplicate Leads", duplicate_leads)].

(** [metrics[key]] *)
Definition item (d : list (string * nat)) (key : string) : outcome nat :=
  match dict_get d key with
  | Some n => Done n
  | None => Raised (KeyError key)
  end.

(** The rows of the table: the label as displayed, and the key of its count. *)
Definition hierarchy : list (string * string) :=
  [("Leads Connected by Either WhatsApp or Call (Connectivity)",
    "Leads Connected by Either WhatsApp or Call (Connectivity)");
   ("  Only Connected on Calls", "Only Connected on Calls");
   ("    Only Connected on Calls and WhatsApp Also Got Attempted",
    "Only Connected on Calls and WhatsApp Also Got Attempted");
   ("  Only Connected on WhatsApp", "Only Connected on WhatsApp");
   ("  Leads Connected on Both WhatsApp and Call",
    "Leads Connected on Both WhatsApp and Call");
   ("Leads Where No WhatsApp and Calls Were Attempted (Call & WhatsApp = 0)",
    "Leads Where No WhatsApp and Calls Were Attempted (Call & WhatsApp = 0)");
   ("  No Calls Attempted", "No Calls Attempted");
   ("    No Calls Attempted but WhatsApp Attempted",
    "No Calls Attempted but WhatsApp Attempted");
   ("  No WhatsApp Attempted", "No WhatsApp Attempted");
   ("    No WhatsApp but Calls Attempted", "No WhatsApp but Calls Attempted");
   ("Total Leads", "Total Leads");
   ("Duplicate Leads", "Duplicate Leads")].

Fixpoint segment_rows (d : list (string * nat)) (rows : list (string * string))
    : outcome (list (string * nat)) :=
  match rows with
  | [] => Done []
  | (shown, key) :: rows' =>
      n ←! item d key;
      t ←! segment_rows d rows';
      Done ((shown, n) :: t)
  end.

Definition segment_hierarchy (d : list (string * nat)) : outcome (list (string * nat)) :=
  segment_rows d hierarchy.

(** The script, from the data frame that was read and the four selections to
    the table on the page. *)
Definition script (df : DataFrame) (sel : Selection) : outcome (list (string * nat)) :=
  if df_empty df then Stopped (Warning "Your file seems to be empty.")
  else
    match missing sel with
    | _ :: _ => Stopped (Warning ("Please select: " +:+ join ", " (missing sel)))
    | [] =>
        b ←! booleans df sel;
        d ←! metrics df b;
        segment_hierarchy d
    end.

(** ** Guessing the four columns and seeding the select boxes *)

(** The keyword lists of the other three roles. *)
Definition call_connected_keywords : list string :=
  ["connectedcall"; "callsconnected"; "callconnected"; "callanswer"; "answered";
   "connected"; "successfulcall"].

Definition wa_sent_keywords : list string :=
  ["sentwhatsapp"; "sentwa"; "whatsappsnt"; "wasent"; "wamsg"; "msgsent";
   "whatsappsent"; "wadelivered"; "whatsappdelivered"].

Definition wa_received_keywords : list string :=
  ["receivedwhatsapp"; "receivedwa"; "wareceived"; "msgreceived";
   "whatsappreceived"; "replied"; "whatsappreply"; "warcvd"].

(** The tests of the fallback search, on the normal form [n] of a label. *)
Definition soft_call_attempted (n : string) : bool :=
  PyStr.contains n "call"
  && (PyStr.contains n "attempt" || PyStr.contains n "dial" || PyStr.contains n "made").

Definition soft_call_connected (n : string) : bool :=
  PyStr.contains n "call"
  && (PyStr.contains n "connect" || PyStr.contains n "answer"
      || PyStr.contains n "success").

Definition soft_wa_sent (n : string) : bool :=
  (PyStr.contains n "wa" || PyStr.contains n "whatsapp")
  && (PyStr.contains n "send" || PyStr.contains n "sent"
      || PyStr.contains n "deliver" || PyStr.contains n "attempt").

Definition soft_wa_received (n : string) : bool :=
  (PyStr.contains n "wa" || PyStr.contains n "whatsapp")
  && (PyStr.contains n "receive" || PyStr.contains n "reply"
      || PyStr.contains n "rcvd").

(** [for c in cols: n = normalize(c); if test(n): guess = c; break] *)
Fixpoint soft_search (test : string → bool) (cols : list string) : option string :=
  match cols with
  | [] => None
  | c :: rest => if test (normalize c) then Some c else soft_search test rest
  end.

(** The guess of the keyword pass and, [if guess is None], the fallback. *)
Definition guess_or_soft (cols keywords : list string) (test : string → bool)
    : option string :=
  match guess_column cols keywords with
  | Some c => Some c
  | None => soft_search test cols
  end.

Definition guess_call_attempted (cols : list string) : option string :=
  guess_or_soft cols call_attempted_keywords soft_call_attempted.
Definition guess_call_connected (cols : list string) : option string :=
  guess_or_soft cols call_connected_keywords soft_call_connected.
Definition guess_wa_sent (cols : list string) : option string :=
  guess_or_soft cols wa_sent_keywords soft_wa_sent.
Definition guess_wa_received (cols : list string) : option string :=
  guess_or_soft cols wa_received_keywords soft_wa_received.

(** [cols.index(x)]: the first position of [x]; [None] stands for the
    [ValueError] of an [x] that is not in the list. *)
Fixpoint list_index (cols : list string) (x : string) : option nat :=
  match cols with
  | [] => None
  | c :: rest => if decide (c = x) then Some 0 else S <$> list_index rest x
  end.

(** [(cols.index(guess) + 1) if guess in cols else 0] *)
Definition default_index (cols : list string) (guess : option string) : option nat :=
  match guess with
  | Some g =>
      if bool_decide (g ∈ cols) then (λ i, i + 1) <$> list_index cols g else Some 0
  | None => Some 0
  end.

(** [["-- select --"] + cols] *)
Definition options (cols : list string) : list string := unselected :: cols.

(** What a select box holds before the user touches it: [options[index]]. *)
Definition selectbox (options : list string) (index : option nat) : option string :=
  index ≫= λ i, options !! i.

(** The four select boxes as the page first shows them. *)
Definition initial_selection (cols : list string) : option Selection :=
  ca ← selectbox (options cols) (default_index cols (guess_call_attempted cols));
  cc ← selectbox (options cols) (default_index cols (guess_call_connected cols));
  ws ← selectbox (options cols) (default_index cols (guess_wa_sent cols));
  wr ← selectbox (options cols) (default_index cols (guess_wa_received cols));
  Some {| col_call_attempted := ca; col_call_connected := cc;
          col_wa_sent := ws; col_wa_received := wr |}.

(** * The vocabulary of the specification *)

(** A label qualifies when its normal form contains one of the keywords. *)
Definition qualifies (keywords : list string) (c : string) : Prop :=
  any_keyword_in keywords (normalize c) = true.

#[local] Instance qualifies_dec keywords c : Decision (qualifies keywords c).
Proof. unfold qualifies. apply _. Defined.

(** Every entry of the dict pairs a label with its normal form. *)
Definition normalized (d : list (string * string)) : Prop :=
  Forall (λ cn, cn.2 = normalize cn.1) d.

Definition float_pos (x : pyfloat) : Prop :=
  match x with
  | FFin q => (0 < q)%Q
  | FPosInf => True
  | FNegInf | FNaN => False
  end.

(** The cell converts to a number: its conversion is not NaN. *)
Definition parses (v : value) : bool := Numeric.notna (Numeric.of_value v).

(** A boolean cell as it is, a missing cell as [False]. *)
Definition pass_through (v : value) : bool :=
  match v with VBool b => b | _ => false end.

(** The text the categorical rule compares with the words of [true_set]. *)
Definition trimmed_lower (v : value) : string := PyStr.lower (PyStr.strip (py_str v)).

(** The boolean of row [i] of a column; rows are numbered from 0. *)
Definition row (m : list bool) (i : nat) : bool := default false (m !! i).

(** The number of row indices below [n] that satisfy [p]. *)
Definition count_rows (n : nat) (p : nat → bool) : nat :=
  length (filter (λ i, p i = true) (seq 0 n)).

(** The boolean signal of row [i] in the column of [df] with this label. *)
Definition signal (df : DataFrame) (label : string) (i : nat) : bool :=
  match dict_get (df_columns df) label with
  | Some s => row (to_bool_series s) i
  | None => false
  end.

(** Every role is bound to a column of the data frame. *)
Definition complete (df : DataFrame) (sel : Selection) : Prop :=
  Forall (λ c, c ≠ unselected ∧ c ∈ df_labels df)
    [col_call_attempted sel; col_call_connected sel; col_wa_sent sel;
     col_wa_received sel].

(** The table of the specification: for each segment the number of rows that
    satisfy its row predicate, then the two counts of the data set. *)
Definition spec_table (n : nat) (call_attempted call_connected wa_sent wa_received :
    nat → bool) (duplicates : nat) : list (string * nat) :=
  let wa_attempted := wa_sent in
  let wa_connected := wa_received in
  [("Leads Connected by Either WhatsApp or Call (Connectivity)",
    count_rows n (λ i, call_connected i || wa_connected i));
   ("  Only Connected on Calls",
    count_rows n (λ i, call_connected i && negb (wa_connected i)));
   ("    Only Connected on Calls and WhatsApp Also Got Attempted",
    count_rows n (λ i, call_connected i && wa_sent i && negb (wa_received i)));
   ("  Only Connected on WhatsApp",
    count_rows n (λ i, wa_connected i && negb (call_connected i)));
   ("  Leads Connected on Both WhatsApp and Call",
    count_rows n (λ i, call_connected i && wa_connected i));
   ("Leads Where No WhatsApp and Calls Were Attempted (Call & WhatsApp = 0)",
    count_rows n (λ i, negb (call_attempted i) && negb (wa_attempted i)));
   ("  No Calls Attempted", count_rows n (λ i, negb (call_attempted i)));
   ("    No Calls Attempted but WhatsApp Attempted",
    count_rows n (λ i, negb (call_attempted i) && wa_attempted i));
   ("  No WhatsApp Attempted", count_rows n (λ i, negb (wa_attempted i)));
   ("    No WhatsApp but Calls Attempted",
    count_rows n (λ i, call_attempted i && negb (wa_attempted i)));
   ("Total Leads", n);
   ("Duplicate Leads", duplicates)].

(** Row [i] shares its value with another row. *)
Definition Shared (vals : list value) (i : nat) : Prop :=
  ∃ j vi vj, j ≠ i ∧ vals !! i = Some vi ∧ vals !! j = Some vj ∧ val_eqb vi vj = true.

Definition shares_value (vals : list value) (i : nat) : bool :=
  match vals !! i with
  | Some v =>
      existsb (λ j, negb (Nat.eqb j i) && from_option (val_eqb v) false (vals !! j))
        (seq 0 (length vals))
  | None => false
  end.

(** The table holds values of rows already read, and every value already
    read is equal to one of its keys. *)
Definition table_ok (pre : list value) (table : list (value * nat)) : Prop :=
  (∀ k j, (k, j) ∈ table → pre !! j = Some k) ∧
  (∀ j w, pre !! j = Some w → ∃ k j', (k, j') ∈ table ∧ val_eqb k w = true).

(** The rows already read are marked exactly when they share their value
    with another row already read. *)
Definition out_ok (pre : list value) (out : list bool) : Prop :=
  ∀ r, r < length pre → (out !! r = Some true ↔ Shared pre r).

(** The data set of the end-to-end scenario, with some identifier column. *)
Definition example_df (phone : Series) : DataFrame := {|
  df_len := 4;
  df_columns :=
    [("CallAttempted", Int64Series [1; 1; 0; 0]%Z);
     ("CallConnected", Int64Series [1; 0; 0; 0]%Z);
     ("WaSent", Int64Series [1; 1; 1; 0]%Z);
     ("WaReceived", Int64Series [0; 1; 0; 0]%Z);
     ("Phone Number", phone)];
|}.

Definition example_sel : Selection := {|
  col_call_attempted := "CallAttempted";
  col_call_connected := "CallConnected";
  col_wa_sent := "WaSent";
  col_wa_received := "WaReceived";
|}.

Definition example_phone : Series :=
  ObjectSeries [VStr "555-1"; VStr "555-1"; VStr "555-2"; VFloat FNaN].

Definition example_table : list (string * nat) :=
  [("Leads Connected by Either WhatsApp or Call (Connectivity)", 2);
   ("  Only Connected on Calls", 1);
   ("    Only Connected on Calls and WhatsApp Also Got Attempted", 1);
   ("  Only Connected on WhatsApp", 1);
   ("  Leads Connected on Both WhatsApp and Call", 0);
   ("Leads Where No WhatsApp and Calls Were Attempted (Call & WhatsApp = 0)", 1);
   ("  No Calls Attempted", 2);
   ("    No Calls Attempted but WhatsApp Attempted", 1);
   ("  No WhatsApp Attempted", 1);
   ("    No WhatsApp but Calls Attempted", 0);
   ("Total Leads", 4);
   ("Duplicate Leads", 2)].

Definition example_df_no_phone : DataFrame := {|
  df_len := 4;
  df_columns :=
    [("CallAttempted", Int64Series [1; 1; 0; 0]%Z);
     ("CallConnected", Int64Series [1; 0; 0; 0]%Z);
     ("WaSent", Int64Series [1; 1; 1; 0]%Z);
     ("WaReceived", Int64Series [0; 1; 0; 0]%Z)];
|}.

Definition phone_df : DataFrame := {|
  df_len := 3;
  df_columns := [("Phone Number", ObjectSeries [VStr "555-1"; VStr "555-1"; VStr "555-2"])];
|}.

(** [c] is the first label of the list that satisfies [P]. *)
Definition first_where (P : string → Prop) (cols : list string) (c : string) : Prop :=
  ∃ i, cols !! i = Some c ∧ P c ∧ ∀ j c', j < i → cols !! j = Some c' → ¬ P c'.

(** A label passes the fallback test of a role. *)
Definition passes (test : string → bool) (c : string) : Prop :=
  test (normalize c) = true.

#[local] Instance passes_dec test c : Decision (passes test c).
Proof. unfold passes. apply _. Defined.

(** The four guesses, in the order of the select boxes. *)
Definition guesses (cols : list string) : list (string * option string) :=
  [("Calls Attempted", guess_call_attempted cols);
   ("Calls Connected", guess_call_connected cols);
   ("WhatsApp Sent", guess_wa_sent cols);
   ("WhatsApp Received", guess_wa_received cols)].

(** The selection that holds each guess, and the sentinel where guessing
    found nothing. *)
Definition seeded (cols : list string) : Selection := {|
  col_call_attempted := default unselected (guess_call_attempted cols);
  col_call_connected := default unselected (guess_call_connected cols);
  col_wa_sent := default unselected (guess_wa_sent cols);
  col_wa_received := default unselected (guess_wa_received cols);
|}.

(** The four selected labels, in the order the script reads their columns. *)
Definition selected (sel : Selection) : list string :=
  [col_call_attempted sel; col_call_connected sel; col_wa_sent sel;
   col_wa_received sel].

(** The label is not a column of the data frame. *)
Definition absent (df : DataFrame) (c : string) : Prop := c ∉ df_labels df.

(** The number of cells of the column that are equal to [v]. *)
Definition group_size (vals : list value) (v : value) : nat :=
  length (filter (λ w, val_eqb v w = true) vals).

(** The rows of a column taken in the order [σ] of row numbers. *)
Definition reorder {A} (σ : list nat) (l : list A) : list A :=
  omap (λ i, l !! i) σ.

Definition s_reorder (σ : list nat) (s : Series) : Series :=
  match s with
  | BoolSeries l => BoolSeries (reorder σ l)
  | Int64Series l => Int64Series (reorder σ l)
  | Float64Series l => Float64Series (reorder σ l)
  | ObjectSeries l => ObjectSeries (reorder σ l)
  end.

(** The data frame with the same columns and its rows in the order [σ]. *)
Definition df_reorder (σ : list nat) (df : DataFrame) : DataFrame := {|
  df_len := df_len df;
  df_columns := prod_map id (s_reorder σ) <$> df_columns df;
|}.

(** A data set whose phone numbers are all different. *)
Definition distinct_phone_df : DataFrame := {|
  df_len := 3;
  df_columns :=
    [("Phone Number", ObjectSeries [VStr "555-1"; VInt 5552; VFloat FNaN])];
|}.

(** * Properties *)

(** ** The normalizer *)

Section normalizer.
Import PyStr.

Lemma re_sub_keep s :
  re_sub_not_az09 s = keep az09 s ∧ in_match_not_az09 s = keep az09 s.
Proof.
  induction s as [|c s [IH1 IH2]]; [done|].
  cbn [re_sub_not_az09 in_match_not_az09 keep]. unfold not_az09.
  destruct (az09 c); cbn [negb]; by rewrite ?IH1, ?IH2.
Qed.

Lemma lower_char_not_upper c : is_upper (lower_char c) = false.
Proof.
  unfold lower_char. destruct (is_upper c) eqn:Hu; [|done].
  revert Hu. by destruct c as [[] [] [] [] [] [] [] []]; vm_compute.
Qed.


Lemma az09_lower_char c : az09 (lower_char c) = is_alnum c.
Proof. by destruct c as [[] [] [] [] [] [] [] []]; vm_compute. Qed.

Lemma space_not_alnum c : is_space c = true → is_alnum c = false.
Proof. by destruct c as [[] [] [] [] [] [] [] []]; vm_compute. Qed.

Lemma keep_az09_lower s : keep az09 (lower s) = lower (keep is_alnum s).
Proof.
  induction s as [|c s IH]; [done|]. cbn [lower keep].
  rewrite az09_lower_char. destruct (is_alnum c); cbn [lower]; by rewrite IH.
Qed.


Lemma keep_alnum_lstrip s : keep is_alnum (lstrip s) = keep is_alnum s.
Proof.
  induction s as [|c s IH]; [done|]. cbn [lstrip keep].
  destruct (is_space c) eqn:Hc; [|done]. by rewrite (space_not_alnum c Hc).
Qed.

Lemma keep_alnum_rstrip s : keep is_alnum (rstrip s) = keep is_alnum s.
Proof.
  induction s as [|c s IH]; [done|]. cbn [rstrip keep]. rewrite <-IH.
  destruct (rstrip s) as [|c' r]; [|done].
  destruct (is_space c) eqn:Hc; [|done]. by rewrite (space_not_alnum c Hc).
Qed.

Lemma normalize_keep s : normalize s = lower (keep is_alnum s).
Proof.
  unfold normalize, strip. rewrite (proj1 (re_sub_keep _)), keep_az09_lower.
  by rewrite keep_alnum_rstrip, keep_alnum_lstrip.
Qed.


Lemma normalize_az09 s : all_chars az09 (normalize s) = true.
Proof.
  rewrite normalize_keep, <-keep_az09_lower.
  induction (lower s) as [|c t IH]; [done|]. cbn [keep].
  destruct (az09 c) eqn:Hc; [|done]. cbn [all_chars]. by rewrite Hc, IH.
Qed.
End normalizer.



(** ** The guesser *)

Section guesser.
Import PyStr.

Lemma app_cons a (s t : string) : String a s +:+ t = String a (s +:+ t).
Proof. reflexivity. Qed.

Lemma app_empty (t : string) : "" +:+ t = t.
Proof. reflexivity. Qed.

Lemma prefix_app k n : String.prefix k n = true ↔ ∃ post, n = k +:+ post.
Proof.
  revert n. induction k as [|a k IH]; intros [|b n]; cbn [String.prefix].
  - split; [by exists ""|done].
  - split; [by exists (String b n)|done].
  - split; [done|by intros [? ?]].
  - destruct (ascii_dec a b) as [->|Hab].
    + rewrite IH. split; intros [post Hp]; exists post;
        rewrite app_cons in *; congruence.
    + split; [done|]. intros [post Hp]. rewrite app_cons in Hp. congruence.
Qed.

(** [contains n k] holds exactly when [k] is a block of [n]. *)
Lemma contains_spec n k :
  contains n k = true ↔ ∃ pre post, n = pre +:+ k +:+ post.
Proof.
  induction n as [|a n IH]; cbn [contains]; rewrite orb_true_iff, prefix_app.
  - split.
    + intros [[post Hp]|?]; [|done]. by exists "", post.
    + intros (pre & post & Hp). left. destruct pre; [by exists post|done].
  - rewrite IH. split.
    + intros [[post Hp]|(pre & post & Hp)]; [by exists "", post|].
      exists (String a pre), post. by rewrite app_cons, Hp.
    + intros (pre & post & Hp). destruct pre as [|b pre].
      * left. by exists post.
      * right. exists pre, post. rewrite app_cons in Hp. congruence.
Qed.

Context (keywords : list string).

Lemma guess_loop_dict_set d c :
  normalized d →
  guess_loop (dict_set d c (normalize c)) keywords =
    match guess_loop d keywords with
    | Some x => Some x
    | None => if decide (qualifies keywords c) then Some c else None
    end
  ∧ normalized (dict_set d c (normalize c)).
Proof.
  induction 1 as [|[k v] d Hk Hd IH]; cbn [dict_set guess_loop].
  - split; [|by repeat constructor].
    destruct (decide (qualifies keywords c)) as [Hq|Hq]; unfold qualifies in Hq.
    + by rewrite Hq.
    + apply not_true_is_false in Hq. by rewrite Hq.
  - assert (v = normalize k) as -> by exact Hk.
    destruct (decide (k = c)) as [->|Hkc]; cbn [guess_loop].
    + split; [|by constructor].
      destruct (any_keyword_in keywords (normalize c)) eqn:Hq; [done|].
      destruct (guess_loop d keywords); [done|].
      destruct (decide (qualifies keywords c)) as [Hq'|_]; [|done].
      unfold qualifies in Hq'. congruence.
    + destruct IH as [IH1 IH2]. split; [|by constructor].
      by destruct (any_keyword_in keywords (normalize k)).
Qed.

Lemma guess_loop_foldl columns d :
  normalized d →
  guess_loop (foldl (λ d c, dict_set d c (normalize c)) d columns) keywords =
    match guess_loop d keywords with
    | Some x => Some x
    | None => snd <$> list_find (qualifies keywords) columns
    end.
Proof.
  revert d. induction columns as [|c columns IH]; intros d Hd; cbn [foldl].
  - by destruct (guess_loop d keywords).
  - destruct (guess_loop_dict_set d c Hd) as [Hg Hn].
    rewrite (IH _ Hn), Hg. destruct (guess_loop d keywords); [done|].
    cbn [list_find]. case_decide; [done|].
    by destruct (list_find (qualifies keywords) columns) as [[? ?]|].
Qed.

Lemma guess_column_find columns :
  guess_column columns keywords = snd <$> list_find (qualifies keywords) columns.
Proof. unfold guess_column, norm_map. by rewrite guess_loop_foldl; [|constructor]. Qed.
End guesser.

Lemma qualifies_spec keywords c :
  qualifies keywords c ↔
  ∃ k pre post, k ∈ keywords ∧ normalize c = pre +:+ k +:+ post.
Proof.
  unfold qualifies, any_keyword_in. rewrite existsb_exists. split.
  - intros (k & Hk%list_elem_of_In & (pre & post & Hc)%contains_spec). eauto.
  - intros (k & pre & post & Hk%list_elem_of_In & Hc).
    exists k. split; [done|]. apply contains_spec. eauto.
Qed.

(** C7: [guess_column] returns the first label, in the order of the list,
    whose normal form contains one of the keywords as a block of consecutive
    characters; it returns [None], and raises nothing, exactly when no label
    qualifies; and for the columns "Call Attempt Flag" and "WA Sent?" with a
    keyword list that includes "attempt", as the one of the script does, the
    answer is "Call Attempt Flag". *)
Theorem guess_column_first_match :
  (∀ columns keywords c,
     guess_column columns keywords = Some c ↔
     ∃ i, columns !! i = Some c ∧ qualifies keywords c ∧
          ∀ j c', j < i → columns !! j = Some c' → ¬ qualifies keywords c') ∧
  (∀ columns keywords,
     guess_column columns keywords = None ↔
     ∀ c, c ∈ columns → ¬ qualifies keywords c) ∧
  (∀ keywords c,
     qualifies keywords c ↔
     ∃ k pre post, k ∈ keywords ∧ normalize c = pre +:+ k +:+ post) ∧
  (∀ keywords,
     "attempt" ∈ keywords →
     guess_column ["Call Attempt Flag"; "WA Sent?"] keywords = Some "Call Attempt Flag") ∧
  "attempt" ∈ call_attempted_keywords ∧
  guess_column ["Call Attempt Flag"; "WA Sent?"] ["zzz"] = None.
Proof.
  assert (Hsome : ∀ columns keywords c,
     guess_column columns keywords = Some c ↔
     ∃ i, columns !! i = Some c ∧ qualifies keywords c ∧
          ∀ j c', j < i → columns !! j = Some c' → ¬ qualifies keywords c').
  { intros columns keywords c. rewrite guess_column_find. split.
    - destruct (list_find _ columns) as [[i x]|] eqn:Hf; [|done].
      intros [= ->]. apply list_find_Some in Hf as (? & ? & ?). naive_solver.
    - intros (i & Hi & Hq & Hfirst).
      assert (list_find (qualifies keywords) columns = Some (i, c)) as ->; [|done].
      apply list_find_Some. naive_solver. }
  split_and!; [done| | |..].
  - intros columns keywords. rewrite guess_column_find.
    rewrite fmap_None, list_find_None, Forall_forall. done.
  - apply qualifies_spec.
  - intros keywords Hk. apply Hsome. exists 0. split_and!; [done| |lia].
    apply qualifies_spec. by exists "attempt", "call", "flag".
  - unfold call_attempted_keywords. repeat constructor.
  - reflexivity.
Qed.

Lemma guess_column_first_match_witness :
  guess_column ["Call Attempt Flag"; "WA Sent?"] call_attempted_keywords
  = Some "Call Attempt Flag".
Proof.
  destruct guess_column_first_match as (_ & _ & _ & Hex & Hin & _).
  exact (Hex call_attempted_keywords Hin).
Defined.

(** ** The signal extractor *)

Section extractor.
Import Numeric.

Lemma gt0_spec x : gt0 (fillna0 x) = true ↔ float_pos x.
Proof.
  destruct x as [q| | |]; cbn; [|done..].
  rewrite negb_true_iff, <-not_true_iff_false, Qle_bool_iff.
  split; [apply Qnot_le_lt|apply Qlt_not_le].
Qed.

Lemma to_bool_series_length s : length (to_bool_series s) = length (cells s).
Proof.
  destruct s as [l|l|l|l]; unfold to_bool_series, to_numeric;
    try (by cbn; rewrite length_fmap);
    destruct (existsb _ _); by rewrite !length_fmap.
Qed.

Lemma some_parses vals :
  existsb notna (of_value <$> vals) = true ↔ ∃ v, v ∈ vals ∧ parses v = true.
Proof.
  rewrite existsb_exists. split.
  - intros (x & (v & -> & Hv)%list_elem_of_In%list_elem_of_fmap & Hx). eauto.
  - intros (v & Hv & Hp). exists (of_value v). split; [|done].
    apply list_elem_of_In, list_elem_of_fmap. eauto.
Qed.

Lemma none_parses vals :
  existsb notna (of_value <$> vals) = false ↔ ∀ v, v ∈ vals → parses v = false.
Proof.
  rewrite <-not_true_iff_false, some_parses. split.
  - intros Hn v Hv. apply not_true_iff_false. naive_solver.
  - intros Hall (v & Hv & Hp). rewrite (Hall v Hv) in Hp. done.
Qed.

(** What [to_bool_series] computes on a column that is not of dtype bool. *)
Lemma to_bool_series_not_bool s :
  dtype_is_bool s = false →
  to_bool_series s =
    if existsb notna (of_value <$> cells s)
    then (λ v, gt0 (fillna0 (of_value v))) <$> cells s
    else (λ v, isin (trimmed_lower v) true_set) <$> cells s.
Proof.
  destruct s; [done|..]; intros _; unfold to_bool_series, to_numeric;
    destruct (existsb _ _); by rewrite <-?list_fmap_compose.
Qed.



(** In the categorical rule no cell is a number, so [py_str] is asked for
    the text of a string or of a missing cell only. *)
Lemma categorical_has_no_number v :
  parses v = false → (∃ t, v = VStr t) ∨ v = VFloat FNaN.
Proof. destruct v as [b|n|[]|t]; cbn; try done; eauto. Qed.

Lemma missing_not_in_true_set v :
  isna v = true → isin (trimmed_lower v) true_set = false.
Proof. by destruct v as [b|n|[]|t]. Qed.
End extractor.



(** C3: when every cell of a column that is not missing is a boolean, the
    output is the column itself with [False] in the place of each missing
    cell, whatever the dtype of the column is, so neither the numeric nor the
    categorical reading changes such a column. *)
Theorem boolean_column_spec s :
  Forall (λ v, isna v = true ∨ ∃ b, v = VBool b) (cells s) →
  to_bool_series s = pass_through <$> cells s.
Proof.
  intros Hall. destruct (dtype_is_bool s) eqn:Hb.
  { destruct s as [l|l|l|l]; try discriminate Hb. cbn [to_bool_series cells].
    rewrite <-list_fmap_compose. symmetry. apply list_fmap_id. }
  rewrite to_bool_series_not_bool by done.
  rewrite Forall_forall in Hall.
  destruct (existsb _ _) eqn:Hnum; apply Forall_fmap_ext_1, Forall_forall;
    intros v Hv; specialize (Hall v Hv).
  - destruct Hall as [Hna|[[] ->]]; [|done..]. by destruct v as [?|?|[]|?].
  - rewrite none_parses in Hnum. specialize (Hnum v Hv).
    destruct Hall as [Hna|[b ->]]; [|done].
    rewrite missing_not_in_true_set by done. by destruct v as [?|?|[]|?].
Qed.

Lemma boolean_column_spec_witness :
  to_bool_series (ObjectSeries [VBool true; VFloat FNaN; VBool false; VFloat FNaN])
  = [true; false; false; false].
Proof.
  rewrite boolean_column_spec; [reflexivity|].
  repeat first [apply Forall_nil_2 | apply Forall_cons_2];
    first [by left | by right; eexists].
Defined.



(** ** The segment calculator *)

Section counting.

Lemma count_rows_0 p : count_rows 0 p = 0.
Proof. done. Qed.

Lemma count_rows_S n p :
  count_rows (S n) p = count_rows n p + (if p n then 1 else 0).
Proof.
  unfold count_rows. rewrite seq_S, filter_app, length_app. f_equal.
  cbn [plus]. rewrite filter_cons, filter_nil.
  by destruct (p n); case_decide.
Qed.

Lemma count_rows_ext n p q :
  (∀ i, i < n → p i = q i) → count_rows n p = count_rows n q.
Proof.
  induction n as [|n IH]; intros Hpq; [done|].
  rewrite !count_rows_S, IH, (Hpq n) by auto with lia. done.
Qed.

Lemma count_rows_le n p q :
  (∀ i, i < n → p i = true → q i = true) → (count_rows n p ≤ count_rows n q)%nat.
Proof.
  induction n as [|n IH]; intros Hpq; [done|].
  rewrite !count_rows_S.
  assert (IH' := IH (λ i Hi, Hpq i (Nat.lt_lt_succ_r _ _ Hi))).
  specialize (Hpq n (Nat.lt_succ_diag_r n)).
  destruct (p n), (q n); try lia; by discriminate Hpq.
Qed.

Lemma s_sum_app m b : s_sum (m ++ [b]) = s_sum m + (if b then 1 else 0).
Proof. unfold s_sum. rewrite sum_list_with_app. cbn. lia. Qed.

Lemma row_app_l m b i : i < length m → row (m ++ [b]) i = row m i.
Proof. intros Hi. unfold row. by rewrite lookup_app_l. Qed.

Lemma row_app_r m b : row (m ++ [b]) (length m) = b.
Proof. unfold row. by rewrite list_lookup_middle. Qed.

(** The sum of a boolean column is the number of its rows that are true. *)
Lemma s_sum_count m : s_sum m = count_rows (length m) (row m).
Proof.
  induction m as [|b m IH] using rev_ind; [done|].
  rewrite s_sum_app, length_app, Nat.add_1_r, count_rows_S, row_app_r, IH.
  f_equal. apply count_rows_ext. intros i Hi. by rewrite row_app_l.
Qed.

Lemma row_zip_with f a b i :
  i < length a → i < length b →
  row (zip_with f a b) i = f (row a i) (row b i).
Proof.
  intros [x Hx]%lookup_lt_is_Some_2 [y Hy]%lookup_lt_is_Some_2.
  unfold row. by rewrite lookup_zip_with, Hx, Hy.
Qed.

Lemma row_not a i : i < length a → row (s_not a) i = negb (row a i).
Proof.
  intros [x Hx]%lookup_lt_is_Some_2.
  unfold row, s_not. by rewrite list_lookup_fmap, Hx.
Qed.

Lemma length_s_or a b : length (s_or a b) = length a `min` length b.
Proof. apply length_zip_with. Qed.
Lemma length_s_and a b : length (s_and a b) = length a `min` length b.
Proof. apply length_zip_with. Qed.
Lemma length_s_not a : length (s_not a) = length a.
Proof. apply length_fmap. Qed.

End counting.

(** Rewrites the sum of a mask built from columns of [n] rows into the count
    of the rows that satisfy the formula of the mask. *)
Ltac mask_lengths :=
  rewrite ?length_s_or, ?length_s_and, ?length_s_not; lia.

Ltac sum_to_count n :=
  rewrite s_sum_count;
  replace (length _) with n by mask_lengths;
  apply count_rows_ext; intros ? ?;
  unfold s_or, s_and;
  repeat first
    [ rewrite row_zip_with by (fold s_or s_and; mask_lengths)
    | rewrite row_not by mask_lengths ];
  reflexivity.

Section script_runs.

Lemma dict_get_elem {V} (d : list (string * V)) k v :
  dict_get d k = Some v → (k, v) ∈ d.
Proof.
  induction d as [|[k' v'] d IH]; [done|]. cbn [dict_get].
  case_decide as Hk; [intros [= ->]; subst; left|right; auto].
Qed.

Lemma dict_get_label {V} (d : list (string * V)) k :
  k ∈ d.*1 → ∃ v, dict_get d k = Some v.
Proof.
  induction d as [|[k' v'] d IH]; [by intros ?%elem_of_nil|].
  cbn [dict_get fmap list_fmap fst]. case_decide as Hk; [eauto|].
  intros [?|?]%elem_of_cons; [congruence|auto].
Qed.

Lemma dict_get_None {V} (d : list (string * V)) k :
  dict_get d k = None ↔ k ∉ d.*1.
Proof.
  split.
  - intros Hn [v Hv]%dict_get_label. congruence.
  - intros Hk. destruct (dict_get d k) as [v|] eqn:Hv; [|done].
    destruct Hk. apply dict_get_elem in Hv. apply list_elem_of_fmap. by exists (k, v).
Qed.

Lemma column_rows df label s :
  df_wf df → dict_get (df_columns df) label = Some s →
  length (to_bool_series s) = df_len df.
Proof.
  intros [_ Hlen] Hs%dict_get_elem. rewrite Forall_forall in Hlen.
  rewrite to_bool_series_length. apply (Hlen _ Hs).
Qed.

Lemma missing_nil sel :
  missing sel = [] ↔
  col_call_attempted sel ≠ unselected ∧ col_call_connected sel ≠ unselected ∧
  col_wa_sent sel ≠ unselected ∧ col_wa_received sel ≠ unselected.
Proof.
  unfold missing, required. rewrite !filter_cons, filter_nil. cbn [snd].
  destruct (decide (col_call_attempted sel = unselected));
    destruct (decide (col_call_connected sel = unselected));
    destruct (decide (col_wa_sent sel = unselected));
    destruct (decide (col_wa_received sel = unselected));
    cbn; split; try discriminate; tauto.
Qed.

(** The table shows the twelve counts of the dict, in its order. *)
Lemma segment_hierarchy_eval n1 n2 n3 n4 n5 n6 n7 n8 n9 n10 n11 n12 :
  segment_hierarchy
    [("Leads Connected by Either WhatsApp or Call (Connectivity)", n1);
     ("Only Connected on Calls", n2);
     ("Only Connected on Calls and WhatsApp Also Got Attempted", n3);
     ("Only Connected on WhatsApp", n4);
     ("Leads Connected on Both WhatsApp and Call", n5);
     ("Leads Where No WhatsApp and Calls Were Attempted (Call & WhatsApp = 0)", n6);
     ("No Calls Attempted", n7);
     ("No Calls Attempted but WhatsApp Attempted", n8);
     ("No WhatsApp Attempted", n9);
     ("No WhatsApp but Calls Attempted", n10);
     ("Total Leads", n11);
     ("Duplicate Leads", n12)]
  = Done
    [("Leads Connected by Either WhatsApp or Call (Connectivity)", n1);
     ("  Only Connected on Calls", n2);
     ("    Only Connected on Calls and WhatsApp Also Got Attempted", n3);
     ("  Only Connected on WhatsApp", n4);
     ("  Leads Connected on Both WhatsApp and Call", n5);
     ("Leads Where No WhatsApp and Calls Were Attempted (Call & WhatsApp = 0)", n6);
     ("  No Calls Attempted", n7);
     ("    No Calls Attempted but WhatsApp Attempted", n8);
     ("  No WhatsApp Attempted", n9);
     ("    No WhatsApp but Calls Attempted", n10);
     ("Total Leads", n11);
     ("Duplicate Leads", n12)].
Proof. vm_compute. reflexivity. Qed.

(** The run of the script when nothing stops it: the table of the
    specification over the four signals. *)
Lemma script_table df sel sca scc sws swr ph :
  df_wf df → df_empty df = false → missing sel = [] →
  dict_get (df_columns df) (col_call_attempted sel) = Some sca →
  dict_get (df_columns df) (col_call_connected sel) = Some scc →
  dict_get (df_columns df) (col_wa_sent sel) = Some sws →
  dict_get (df_columns df) (col_wa_received sel) = Some swr →
  dict_get (df_columns df) "Phone Number" = Some ph →
  script df sel =
    Done (spec_table (df_len df)
            (signal df (col_call_attempted sel)) (signal df (col_call_connected sel))
            (signal df (col_wa_sent sel)) (signal df (col_wa_received sel))
            (s_sum (duplicated (cells ph)))).
Proof.
  intros Hwf He Hm Hca Hcc Hws Hwr Hph.
  pose proof (column_rows df _ _ Hwf Hca). pose proof (column_rows df _ _ Hwf Hcc).
  pose proof (column_rows df _ _ Hwf Hws). pose proof (column_rows df _ _ Hwf Hwr).
  unfold script, booleans, metrics, duplicate_leads, getitem, spec_table, signal.
  rewrite He, Hm, Hca, Hcc, Hws, Hwr, Hph.
  cbn [bind try_or_stop call_attempted call_connected wa_sent wa_received].
  rewrite segment_hierarchy_eval.
  f_equal. repeat (f_equal; [f_equal; sum_to_count (df_len df)|]).
  do 2 f_equal. sum_to_count (df_len df).
Qed.

(** A run that ends with a table found the five columns it reads. *)
Lemma script_done_inv df sel t :
  script df sel = Done t →
  df_empty df = false ∧ missing sel = [] ∧
  ∃ sca scc sws swr ph,
    dict_get (df_columns df) (col_call_attempted sel) = Some sca ∧
    dict_get (df_columns df) (col_call_connected sel) = Some scc ∧
    dict_get (df_columns df) (col_wa_sent sel) = Some sws ∧
    dict_get (df_columns df) (col_wa_received sel) = Some swr ∧
    dict_get (df_columns df) "Phone Number" = Some ph.
Proof.
  unfold script, booleans, metrics, duplicate_leads, getitem.
  destruct (df_empty df); [done|]. destruct (missing sel); [|done].
  destruct (dict_get _ (col_call_attempted sel)) as [sca|]; [|done].
  destruct (dict_get _ (col_call_connected sel)) as [scc|]; [|done].
  destruct (dict_get _ (col_wa_sent sel)) as [sws|]; [|done].
  destruct (dict_get _ (col_wa_received sel)) as [swr|]; [|done].
  destruct (dict_get _ "Phone Number") as [ph|]; [|done].
  intros _. split_and!; [done..|]. by exists sca, scc, sws, swr, ph.
Qed.

End script_runs.

Section segment_identities.
Context (n : nat) (a c s r : nat → bool).

Lemma both_le_either :
  (count_rows n (λ i, c i && r i) ≤ count_rows n (λ i, c i || r i))%nat.
Proof. apply count_rows_le. intros i _. by destruct (c i), (r i). Qed.

Lemma connected_partition :
  count_rows n (λ i, c i && negb (r i)) + count_rows n (λ i, c i && r i)
  + count_rows n (λ i, r i && negb (c i))
  + count_rows n (λ i, negb (c i) && negb (r i)) = n.
Proof.
  induction n as [|k IH]; [done|]. rewrite !count_rows_S.
  destruct (c k), (r k); cbn [andb negb]; lia.
Qed.

Lemma no_calls_split :
  count_rows n (λ i, negb (a i)) =
  count_rows n (λ i, negb (a i) && negb (s i)) + count_rows n (λ i, negb (a i) && s i).
Proof.
  induction n as [|k IH]; [done|]. rewrite !count_rows_S.
  destruct (a k), (s k); cbn [andb negb]; lia.
Qed.

Lemma no_whatsapp_split :
  count_rows n (λ i, negb (s i)) =
  count_rows n (λ i, negb (a i) && negb (s i)) + count_rows n (λ i, a i && negb (s i)).
Proof.
  induction n as [|k IH]; [done|]. rewrite !count_rows_S.
  destruct (a k), (s k); cbn [andb negb]; lia.
Qed.

Lemma calls_with_whatsapp_le :
  (count_rows n (λ i, c i && s i && negb (r i)) ≤ count_rows n (λ i, c i && negb (r i)))%nat.
Proof. apply count_rows_le. intros i _. by destruct (c i), (s i), (r i). Qed.
End segment_identities.


Lemma example_df_wf phone : length (cells phone) = 4 → df_wf (example_df phone).
Proof.
  intros Hlen. split.
  - by apply (bool_decide_unpack (NoDup (df_labels (example_df phone)))).
  - unfold example_df. cbn [df_columns df_len].
    repeat (apply Forall_cons_2; [done|]). apply Forall_nil_2.
Qed.



(** C5: whenever the script shows its table, Connected by Either is at least
    Connected on Both, and Only Connected on Calls, Connected on Both, Only
    Connected on WhatsApp and the number of rows where neither channel
    connected add up to Total Leads, the number of rows. *)
Theorem segment_sums_consistent df sel t :
  df_wf df → script df sel = Done t →
  ∃ either only_calls only_whatsapp both total,
    dict_get t "Leads Connected by Either WhatsApp or Call (Connectivity)" = Some either ∧
    dict_get t "  Only Connected on Calls" = Some only_calls ∧
    dict_get t "  Only Connected on WhatsApp" = Some only_whatsapp ∧
    dict_get t "  Leads Connected on Both WhatsApp and Call" = Some both ∧
    dict_get t "Total Leads" = Some total ∧
    total = df_len df ∧
    (both ≤ either)%nat ∧
    only_calls + both + only_whatsapp
      + count_rows (df_len df)
          (λ i, negb (signal df (col_call_connected sel) i)
                && negb (signal df (col_wa_received sel) i))
      = total.
Proof.
  intros Hwf Ht.
  destruct (script_done_inv _ _ _ Ht)
    as (He & Hm & sca & scc & sws & swr & ph & ? & ? & ? & ? & ?).
  rewrite (script_table df sel sca scc sws swr ph) in Ht by done.
  injection Ht as <-. unfold spec_table.
  do 5 eexists. split_and!; [reflexivity..|apply both_le_either|apply connected_partition].
Qed.

Lemma example_script : script (example_df example_phone) example_sel = Done example_table.
Proof. reflexivity. Qed.

Lemma segment_sums_consistent_witness :
  ∃ either only_calls only_whatsapp both total,
    dict_get example_table "Leads Connected by Either WhatsApp or Call (Connectivity)"
      = Some either ∧
    dict_get example_table "  Only Connected on Calls" = Some only_calls ∧
    dict_get example_table "  Only Connected on WhatsApp" = Some only_whatsapp ∧
    dict_get example_table "  Leads Connected on Both WhatsApp and Call" = Some both ∧
    dict_get example_table "Total Leads" = Some total ∧
    total = 4 ∧
    (both ≤ either)%nat ∧
    only_calls + both + only_whatsapp
      + count_rows 4
          (λ i, negb (signal (example_df example_phone) "CallConnected" i)
                && negb (signal (example_df example_phone) "WaReceived" i))
      = total.
Proof.
  apply (segment_sums_consistent (example_df example_phone) example_sel example_table).
  - apply example_df_wf. reflexivity.
  - reflexivity.
Defined.

(** C10: whenever the script shows its table, the counts nest as the
    hierarchy displays them: No Calls Attempted is Neither Attempted plus No
    Calls Attempted but WhatsApp Attempted, No WhatsApp Attempted is Neither
    Attempted plus No WhatsApp but Calls Attempted, and Only Connected on
    Calls and WhatsApp Also Got Attempted is at most Only Connected on
    Calls. *)
Theorem hierarchy_nesting df sel t :
  df_wf df → script df sel = Done t →
  ∃ neither no_calls no_calls_wa no_wa no_wa_calls only_calls only_calls_wa,
    dict_get t "Leads Where No WhatsApp and Calls Were Attempted (Call & WhatsApp = 0)"
      = Some neither ∧
    dict_get t "  No Calls Attempted" = Some no_calls ∧
    dict_get t "    No Calls Attempted but WhatsApp Attempted" = Some no_calls_wa ∧
    dict_get t "  No WhatsApp Attempted" = Some no_wa ∧
    dict_get t "    No WhatsApp but Calls Attempted" = Some no_wa_calls ∧
    dict_get t "  Only Connected on Calls" = Some only_calls ∧
    dict_get t "    Only Connected on Calls and WhatsApp Also Got Attempted"
      = Some only_calls_wa ∧
    no_calls = neither + no_calls_wa ∧
    no_wa = neither + no_wa_calls ∧
    (only_calls_wa ≤ only_calls)%nat.
Proof.
  intros Hwf Ht.
  destruct (script_done_inv _ _ _ Ht)
    as (He & Hm & sca & scc & sws & swr & ph & ? & ? & ? & ? & ?).
  rewrite (script_table df sel sca scc sws swr ph) in Ht by done.
  injection Ht as <-. unfold spec_table.
  do 7 eexists.
  split_and!; [reflexivity..|apply no_calls_split|apply no_whatsapp_split
              |apply calls_with_whatsapp_le].
Qed.

Lemma hierarchy_nesting_witness :
  ∃ neither no_calls no_calls_wa no_wa no_wa_calls only_calls only_calls_wa,
    dict_get example_table
      "Leads Where No WhatsApp and Calls Were Attempted (Call & WhatsApp = 0)"
      = Some neither ∧
    dict_get example_table "  No Calls Attempted" = Some no_calls ∧
    dict_get example_table "    No Calls Attempted but WhatsApp Attempted"
      = Some no_calls_wa ∧
    dict_get example_table "  No WhatsApp Attempted" = Some no_wa ∧
    dict_get example_table "    No WhatsApp but Calls Attempted" = Some no_wa_calls ∧
    dict_get example_table "  Only Connected on Calls" = Some only_calls ∧
    dict_get example_table "    Only Connected on Calls and WhatsApp Also Got Attempted"
      = Some only_calls_wa ∧
    no_calls = neither + no_calls_wa ∧
    no_wa = neither + no_wa_calls ∧
    (only_calls_wa ≤ only_calls)%nat.
Proof.
  apply (hierarchy_nesting (example_df example_phone) example_sel example_table).
  - apply example_df_wf. reflexivity.
  - reflexivity.
Defined.



(** ** Duplicate leads *)

Section duplicates.

Lemma float_eqb_refl x : float_eqb x x = true.
Proof. destruct x; cbn; [apply Qeq_bool_refl|done..]. Qed.

Lemma float_eqb_sym x y : float_eqb x y = true → float_eqb y x = true.
Proof. destruct x, y; cbn; try done. apply Qeq_bool_sym. Qed.

Lemma float_eqb_trans x y z :
  float_eqb x y = true → float_eqb y z = true → float_eqb x z = true.
Proof. destruct x, y, z; cbn; try done. apply Qeq_bool_trans. Qed.

Lemma val_eqb_refl v : val_eqb v v = true.
Proof.
  destruct v; cbn [val_eqb num_of]; try apply float_eqb_refl.
  by apply bool_decide_eq_true.
Qed.

Lemma val_eqb_sym a b : val_eqb a b = true → val_eqb b a = true.
Proof.
  destruct a, b; cbn [val_eqb num_of]; try done; try apply float_eqb_sym.
  rewrite !bool_decide_eq_true. done.
Qed.

Lemma val_eqb_trans a b c :
  val_eqb a b = true → val_eqb b c = true → val_eqb a c = true.
Proof.
  destruct a, b, c; cbn [val_eqb num_of]; try done; try apply float_eqb_trans.
  rewrite !bool_decide_eq_true. congruence.
Qed.

Lemma val_eqb_str s t : val_eqb (VStr s) (VStr t) = true ↔ s = t.
Proof. cbn. apply bool_decide_eq_true. Qed.

Lemma shares_value_spec vals i : shares_value vals i = true ↔ Shared vals i.
Proof.
  unfold shares_value, Shared. destruct (vals !! i) as [v|] eqn:Hi.
  - rewrite existsb_exists. split.
    + intros (j & _ & [Hji Hj]%andb_true_iff).
      destruct (vals !! j) as [w|] eqn:Hw; [|done].
      exists j, v, w. split_and!; try done.
      intros ->. by rewrite Nat.eqb_refl in Hji.
    + intros (j & vi & vj & Hji & [= <-] & Hj & Heq). exists j. split.
      * apply in_seq. apply lookup_lt_Some in Hj. lia.
      * rewrite Hj. cbn. rewrite Heq, andb_true_r.
        apply negb_true_iff, Nat.eqb_neq. done.
  - split; [done|]. by intros (j & vi & vj & _ & ? & _).
Qed.

Lemma table_get_Some table v j :
  table_get table v = Some j → ∃ k, (k, j) ∈ table ∧ val_eqb k v = true.
Proof.
  induction table as [|[k' j'] table IH]; [done|]. cbn [table_get].
  destruct (val_eqb k' v) eqn:Hk.
  - intros [= ->]. exists k'. split; [left|done].
  - intros (k & ? & ?)%IH. exists k. split; [by right|done].
Qed.

Lemma table_get_None table v k j :
  table_get table v = None → (k, j) ∈ table → val_eqb k v = false.
Proof.
  induction table as [|[k' j'] table IH]; [by intros _ ?%elem_of_nil|].
  cbn [table_get]. destruct (val_eqb k' v) eqn:Hk; [done|].
  intros Hn [[= -> ->]|?]%elem_of_cons; auto.
Qed.

Lemma Shared_snoc_old pre v r :
  r < length pre →
  Shared (pre ++ [v]) r ↔
  Shared pre r ∨ ∃ w, pre !! r = Some w ∧ val_eqb w v = true.
Proof.
  intros Hr. split.
  - intros (j & vi & vj & Hjr & Hi & Hj & Heq).
    rewrite lookup_app_l in Hi by done.
    destruct (decide (j < length pre)) as [Hlt|Hge].
    + rewrite lookup_app_l in Hj by done. left. by exists j, vi, vj.
    + assert (j = length pre) as ->.
      { apply lookup_lt_Some in Hj. rewrite length_app in Hj. cbn in Hj. lia. }
      rewrite list_lookup_middle in Hj by done. injection Hj as <-. right. eauto.
  - intros [(j & vi & vj & Hjr & Hi & Hj & Heq)|(w & Hw & Heq)].
    + exists j, vi, vj. split_and!; try done; by apply lookup_app_l_Some.
    + exists (length pre), w, v. split_and!; try done; [lia| |].
      * by apply lookup_app_l_Some.
      * by apply list_lookup_middle.
Qed.

Lemma Shared_snoc_new pre v :
  Shared (pre ++ [v]) (length pre) ↔ ∃ j w, pre !! j = Some w ∧ val_eqb v w = true.
Proof.
  split.
  - intros (j & vi & vj & Hjr & Hi & Hj & Heq).
    rewrite list_lookup_middle in Hi by done. injection Hi as <-.
    assert (j < length pre) as Hlt.
    { apply lookup_lt_Some in Hj. rewrite length_app in Hj. cbn in Hj. lia. }
    rewrite lookup_app_l in Hj by done. eauto.
  - intros (j & w & Hj & Heq). exists j, v, w.
    pose proof (lookup_lt_Some _ _ _ Hj).
    split_and!; try done; [lia|by apply list_lookup_middle|by apply lookup_app_l_Some].
Qed.

End duplicates.

Section duplicated_scan.

Lemma table_ok_hit pre table v :
  table_ok pre table → is_Some (table_get table v) → table_ok (pre ++ [v]) table.
Proof.
  intros [Hsound Hcomplete] [j (k & Hk & Hkv)%table_get_Some]. split.
  - intros k' j' Hin. by apply lookup_app_l_Some, Hsound.
  - intros j' w [Hw|[_ Hw]]%lookup_app_Some; [by eauto|].
    destruct (j' - length pre) as [|d]; [|by destruct d].
    cbn in Hw. injection Hw as <-. eauto.
Qed.

Lemma table_ok_miss pre table v :
  table_ok pre table → table_ok (pre ++ [v]) ((v, length pre) :: table).
Proof.
  intros [Hsound Hcomplete]. split.
  - intros k j [[= -> ->]|Hin]%elem_of_cons; [by apply list_lookup_middle|].
    by apply lookup_app_l_Some, Hsound.
  - intros j w [Hw|[_ Hw]]%lookup_app_Some.
    + destruct (Hcomplete j w Hw) as (k & j' & ? & ?). exists k, j'. split; [by right|done].
    + destruct (j - length pre) as [|d]; [|by destruct d].
      cbn in Hw. injection Hw as <-. exists v, (length pre).
      split; [left|apply val_eqb_refl].
Qed.

(** A value that is not in the table is equal to no value already read. *)
Lemma table_miss_fresh pre table v j w :
  table_ok pre table → table_get table v = None →
  pre !! j = Some w → val_eqb w v = false.
Proof.
  intros [_ Hcomplete] Hnone Hw.
  destruct (Hcomplete j w Hw) as (k & j' & Hin & Hkw).
  pose proof (table_get_None _ _ _ _ Hnone Hin) as Hkv.
  destruct (val_eqb w v) eqn:Hwv; [|done].
  by rewrite (val_eqb_trans _ _ _ Hkw Hwv) in Hkv.
Qed.

Lemma duplicated_loop_ok rest : ∀ pre table out,
  length out = length pre + length rest →
  table_ok pre table → out_ok pre out →
  length (duplicated_loop rest (length pre) table out) = length pre + length rest ∧
  out_ok (pre ++ rest) (duplicated_loop rest (length pre) table out).
Proof.
  induction rest as [|v rest IH]; intros pre table out Hlen Htab Hout.
  { cbn [duplicated_loop]. by rewrite app_nil_r. }
  cbn [duplicated_loop length] in *.
  assert (Hsnoc : length (pre ++ [v]) = S (length pre)).
  { rewrite length_app. cbn. lia. }
  specialize (IH (pre ++ [v])%list). rewrite <-app_assoc, Hsnoc in IH. cbn [app] in IH.
  replace (S (length pre) + length rest) with (length pre + S (length rest)) in IH by lia.
  destruct (table_get table v) as [j|] eqn:Hget.
  - destruct (table_get_Some _ _ _ Hget) as (k & Hin & Hkv).
    pose proof (proj1 Htab _ _ Hin) as Hj.
    pose proof (lookup_lt_Some _ _ _ Hj) as Hjlt.
    apply IH; [rewrite !length_insert; lia|by apply table_ok_hit|].
    intros r Hr. rewrite Hsnoc in Hr.
    destruct (decide (r = length pre)) as [->|Hne].
    + rewrite list_lookup_insert_eq by (rewrite length_insert; lia).
      rewrite Shared_snoc_new. split; [intros _|done].
      exists j, k. split; [done|]. by apply val_eqb_sym.
    + rewrite list_lookup_insert_ne by done.
      rewrite Shared_snoc_old by lia.
      destruct (decide (r = j)) as [->|Hrj].
      * rewrite list_lookup_insert_eq by lia. split; [intros _|done]. right. eauto.
      * rewrite list_lookup_insert_ne by done. rewrite (Hout r) by lia.
        split; [by left|]. intros [?|(w & Hw & Hwv)]; [done|].
        exists j, w, k. split_and!; try done.
        eapply val_eqb_trans; [done|]. by apply val_eqb_sym.
  - apply IH; [rewrite !length_insert; lia|by apply table_ok_miss|].
    intros r Hr. rewrite Hsnoc in Hr.
    destruct (decide (r = length pre)) as [->|Hne].
    + rewrite list_lookup_insert_eq by lia.
      rewrite Shared_snoc_new. split; [done|].
      intros (j & w & Hw & Hvw).
      apply val_eqb_sym in Hvw.
      by rewrite (table_miss_fresh _ _ _ _ _ Htab Hget Hw) in Hvw.
    + rewrite list_lookup_insert_ne by done.
      rewrite Shared_snoc_old by lia. rewrite (Hout r) by lia.
      split; [by left|]. intros [?|(w & Hw & Hwv)]; [done|].
      by rewrite (table_miss_fresh _ _ _ _ _ Htab Hget Hw) in Hwv.
Qed.

(** [duplicated] marks the rows that share their value with another row. *)
Lemma duplicated_spec vals :
  length (duplicated vals) = length vals ∧
  ∀ r, r < length vals → row (duplicated vals) r = shares_value vals r.
Proof.
  destruct (duplicated_loop_ok vals [] [] (replicate (length vals) false))
    as [Hlen Hout].
  - by rewrite length_replicate.
  - split; [by intros ? ? ?%elem_of_nil|by intros ? ? ?].
  - intros r Hr. cbn in Hr. lia.
  - split; [done|]. intros r Hr.
    specialize (Hout r Hr). rewrite <-shares_value_spec in Hout.
    cbn [app length] in Hout. unfold duplicated, row.
    destruct (duplicated_loop vals 0 [] _ !! r) as [[]|];
      destruct (shares_value vals r); cbn; try done.
    + by pose proof (proj1 Hout eq_refl).
    + by pose proof (proj2 Hout eq_refl).
    + by pose proof (proj2 Hout eq_refl).
Qed.

Lemma duplicates_count vals :
  s_sum (duplicated vals) = count_rows (length vals) (shares_value vals).
Proof.
  destruct (duplicated_spec vals) as [Hlen Hrow].
  rewrite s_sum_count, Hlen. by apply count_rows_ext.
Qed.

End duplicated_scan.

(** C6: on a data set with the column "Phone Number", Duplicate Leads is the
    number of rows whose value in that column is equal to the value of
    another row, so every row of a group of two or more equal values is
    counted; the script shows that number; equality of values is an
    equivalence, which on two strings is equality of the strings; and the
    phone numbers "555-1", "555-1", "555-2" give 2. *)
Theorem duplicate_leads_spec :
  (∀ df ph,
     df_wf df → dict_get (df_columns df) "Phone Number" = Some ph →
     duplicate_leads df = Done (count_rows (df_len df) (shares_value (cells ph))) ∧
     ∀ sel t, script df sel = Done t →
       dict_get t "Duplicate Leads"
         = Some (count_rows (df_len df) (shares_value (cells ph)))) ∧
  (∀ vals i,
     shares_value vals i = true ↔
     ∃ j vi vj, j ≠ i ∧ vals !! i = Some vi ∧ vals !! j = Some vj ∧ val_eqb vi vj = true) ∧
  (∀ s t, val_eqb (VStr s) (VStr t) = true ↔ s = t) ∧
  (∀ a, val_eqb a a = true) ∧
  (∀ a b, val_eqb a b = true → val_eqb b a = true) ∧
  (∀ a b c, val_eqb a b = true → val_eqb b c = true → val_eqb a c = true) ∧
  duplicate_leads phone_df = Done 2.
Proof.
  split_and!; [|apply shares_value_spec|apply val_eqb_str|apply val_eqb_refl
              |apply val_eqb_sym|apply val_eqb_trans|reflexivity].
  intros df ph Hwf Hph.
  assert (Hrows : length (cells ph) = df_len df).
  { destruct Hwf as [_ Hlen]. rewrite Forall_forall in Hlen.
    apply (Hlen _ (dict_get_elem _ _ _ Hph)). }
  split.
  - unfold duplicate_leads, getitem. rewrite Hph. cbn [bind].
    by rewrite duplicates_count, Hrows.
  - intros sel t Ht.
    destruct (script_done_inv _ _ _ Ht)
      as (He & Hm & sca & scc & sws & swr & ph' & ? & ? & ? & ? & Hph').
    rewrite (script_table df sel sca scc sws swr ph') in Ht by done.
    injection Ht as <-. rewrite Hph in Hph'. injection Hph' as <-.
    unfold spec_table. by rewrite duplicates_count, Hrows.
Qed.

Lemma duplicate_leads_spec_witness :
  duplicate_leads (example_df example_phone)
  = Done (count_rows 4 (shares_value (cells example_phone))).
Proof.
  apply (proj1 duplicate_leads_spec (example_df example_phone) example_phone).
  - apply example_df_wf. reflexivity.
  - reflexivity.
Defined.


(** * Further properties of the code *)

(** ** Normalizing and guessing *)

Section normalizer_more.
Import PyStr.

Lemma keep_app p (a b : string) : keep p (a +:+ b) = keep p a +:+ keep p b.
Proof.
  induction a as [|c a IH]; [done|]. rewrite app_cons. cbn [keep].
  destruct (p c); by rewrite ?app_cons, IH.
Qed.

Lemma lower_app (a b : string) : lower (a +:+ b) = lower a +:+ lower b.
Proof. induction a as [|c a IH]; [done|]. rewrite app_cons. cbn [lower]. by rewrite app_cons, IH. Qed.

Lemma normalize_app (a b : string) : normalize (a +:+ b) = normalize a +:+ normalize b.
Proof. by rewrite !normalize_keep, keep_app, lower_app. Qed.

Lemma keep_all p s : all_chars p s = true → keep p s = s.
Proof.
  induction s as [|c s IH]; [done|]. cbn [all_chars keep].
  intros [-> Hs]%andb_true_iff. by rewrite IH.
Qed.

Lemma all_chars_impl (p q : ascii → bool) s :
  (∀ c, p c = true → q c = true) → all_chars p s = true → all_chars q s = true.
Proof.
  intros Hpq. induction s as [|c s IH]; [done|]. cbn [all_chars].
  intros [Hc Hs]%andb_true_iff. by rewrite (Hpq c Hc), IH.
Qed.

Lemma lower_fixed s : all_chars az09 s = true → lower s = s.
Proof.
  induction s as [|c s IH]; [done|]. cbn [all_chars lower].
  intros [Hc Hs]%andb_true_iff. rewrite IH by done. f_equal.
  revert Hc. by destruct c as [[] [] [] [] [] [] [] []]; vm_compute.
Qed.

Lemma az09_alnum c : az09 c = true → is_alnum c = true.
Proof. by destruct c as [[] [] [] [] [] [] [] []]; vm_compute. Qed.

Lemma normalize_fixed s : all_chars az09 s = true → normalize s = s.
Proof.
  intros Hs. rewrite normalize_keep, keep_all; [by apply lower_fixed|].
  by apply (all_chars_impl az09), Hs; apply az09_alnum.
Qed.
End normalizer_more.

(** X1: normalizing twice is normalizing once, a text of the characters a-z
    and 0-9 is its own normal form, and the normal form of a concatenation
    is the concatenation of the normal forms. *)
Theorem normalize_idempotent_app :
  (∀ s, normalize (normalize s) = normalize s) ∧
  (∀ s, PyStr.all_chars az09 s = true → normalize s = s) ∧
  (∀ a b, normalize (a +:+ b) = normalize a +:+ normalize b).
Proof.
  split_and!; [|apply normalize_fixed|apply normalize_app].
  intros s. apply normalize_fixed, normalize_az09.
Qed.

Lemma normalize_idempotent_app_witness : normalize "wa2sent" = "wa2sent".
Proof. apply (proj1 (proj2 normalize_idempotent_app)). reflexivity. Defined.

(** X2: a label qualifies as soon as some part of it has a keyword as its
    normal form: case, blanks and punctuation inside the label do not hide a
    keyword. *)
Theorem keyword_in_label_qualifies keywords k pre mid post :
  k ∈ keywords → normalize mid = k →
  qualifies keywords (pre +:+ mid +:+ post).
Proof.
  intros Hk Hmid. apply qualifies_spec.
  exists k, (normalize pre), (normalize post).
  by rewrite !normalize_app, Hmid.
Qed.

Lemma keyword_in_label_qualifies_witness :
  qualifies call_attempted_keywords ("No. of " +:+ "CALLS - Attempted" +:+ " (total)").
Proof.
  apply (keyword_in_label_qualifies _ "callsattempted"); [|reflexivity].
  unfold call_attempted_keywords. repeat constructor.
Defined.

(** X3: the guess depends on the keywords as a set only: two keyword lists
    with the same members, in any order and with any repetitions, give the
    same guess. *)
Theorem guess_column_keyword_set columns keywords keywords' :
  (∀ k, k ∈ keywords ↔ k ∈ keywords') →
  guess_column columns keywords = guess_column columns keywords'.
Proof.
  intros Hset. rewrite !guess_column_find. f_equal. apply list_find_ext.
  intros c. rewrite !qualifies_spec.
  split; intros (k & pre & post & Hk & Hn); exists k, pre, post;
    (split; [by apply Hset|done]).
Qed.

Lemma guess_column_keyword_set_witness :
  guess_column ["Lead"; "Dialed?"; "Attempts"] ["attempt"; "dialed"]
  = guess_column ["Lead"; "Dialed?"; "Attempts"] ["dialed"; "attempt"; "dialed"].
Proof.
  apply guess_column_keyword_set. intros k.
  rewrite !elem_of_cons, elem_of_nil. tauto.
Defined.

Section norm_map_dict.

Lemma dict_get_set {V} (d : list (string * V)) k v k' :
  dict_get (dict_set d k v) k' = if decide (k = k') then Some v else dict_get d k'.
Proof.
  induction d as [|[k0 v0] d IH]; cbn [dict_set dict_get].
  - by destruct (decide (k = k')).
  - destruct (decide (k0 = k)) as [->|Hk0]; cbn [dict_get].
    + by destruct (decide (k = k')).
    + destruct (decide (k0 = k')) as [->|?]; [|done].
      by destruct (decide (k = k')); [congruence|].
Qed.

Lemma dict_set_keys {V} (d : list (string * V)) k v :
  (dict_set d k v).*1 = if decide (k ∈ d.*1) then d.*1 else (d.*1 ++ [k])%list.
Proof.
  induction d as [|[k0 v0] d IH]; cbn [dict_set fmap list_fmap fst].
  - rewrite decide_False by apply not_elem_of_nil. done.
  - destruct (decide (k0 = k)) as [->|Hk0]; cbn [fmap list_fmap fst].
    + rewrite decide_True by left. done.
    + change (list_fmap _ _ fst ?l) with (l.*1). rewrite IH.
      destruct (decide (k ∈ d.*1)) as [Hin|Hout].
      * rewrite decide_True by by right. done.
      * rewrite decide_False; [done|].
        intros [?|?]%elem_of_cons; [congruence|done].
Qed.

Lemma foldl_norm_get columns : ∀ d c,
  dict_get (foldl (λ d c, dict_set d c (normalize c)) d columns) c =
    if decide (c ∈ columns) then Some (normalize c) else dict_get d c.
Proof.
  induction columns as [|c0 columns IH]; intros d c; cbn [foldl].
  - rewrite decide_False by apply not_elem_of_nil. done.
  - rewrite IH, dict_get_set.
    destruct (decide (c ∈ columns)) as [Hin|Hout].
    + rewrite decide_True by by right. done.
    + destruct (decide (c0 = c)) as [->|Hne].
      * rewrite decide_True by left. done.
      * rewrite decide_False; [done|].
        intros [?|?]%elem_of_cons; [congruence|done].
Qed.

Lemma foldl_norm_NoDup columns : ∀ d : list (string * string),
  NoDup d.*1 → NoDup (foldl (λ d c, dict_set d c (normalize c)) d columns).*1.
Proof.
  induction columns as [|c0 columns IH]; intros d Hd; cbn [foldl]; [done|].
  apply IH. rewrite dict_set_keys. case_decide as Hin; [done|].
  apply NoDup_app. split_and!; [done| |apply NoDup_singleton].
  intros x Hx ->%list_elem_of_singleton. done.
Qed.

End norm_map_dict.

(** X4: the dict of normal forms that [guess_column] builds has every label
    of the list as a key, once, with its normal form as the value, and no
    other key, also when the list repeats a label. *)
Theorem norm_map_lookup columns c :
  dict_get (norm_map columns) c
    = (if decide (c ∈ columns) then Some (normalize c) else None) ∧
  NoDup (norm_map columns).*1.
Proof.
  split.
  - unfold norm_map. by rewrite foldl_norm_get.
  - apply foldl_norm_NoDup. constructor.
Qed.

(** ** The fallback search and the select boxes *)

Section guessing.

Lemma first_where_find P `{∀ c, Decision (P c)} cols c :
  snd <$> list_find P cols = Some c ↔ first_where P cols c.
Proof.
  unfold first_where. split.
  - destruct (list_find P cols) as [[i x]|] eqn:Hf; [|done].
    intros [= ->]. apply list_find_Some in Hf as (? & ? & Hfirst).
    exists i. split_and!; [done..|]. intros j c' ? ?. by eapply Hfirst.
  - intros (i & Hi & Hc & Hfirst).
    assert (list_find P cols = Some (i, c)) as ->; [|done].
    apply list_find_Some. split_and!; [done..|]. intros j y ? ?. by eapply Hfirst.
Qed.

Lemma soft_search_find test cols :
  soft_search test cols = snd <$> list_find (passes test) cols.
Proof.
  induction cols as [|c cols IH]; [done|]. cbn [soft_search list_find].
  destruct (decide (passes test c)) as [Hp|Hp]; unfold passes in Hp.
  - by rewrite Hp.
  - apply not_true_is_false in Hp. rewrite Hp, IH.
    by destruct (list_find (passes test) cols) as [[? ?]|].
Qed.

Lemma soft_search_ext test test' cols :
  (∀ c, c ∈ cols → test (normalize c) = test' (normalize c)) →
  soft_search test cols = soft_search test' cols.
Proof.
  induction cols as [|c cols IH]; intros Heq; [done|]. cbn [soft_search].
  rewrite (Heq c) by left. rewrite IH; [done|]. intros c' ?. apply Heq. by right.
Qed.

Lemma first_where_elem P cols c : first_where P cols c → c ∈ cols ∧ P c.
Proof. intros (i & Hi & Hc & _). split; [|done]. apply list_elem_of_lookup. eauto. Qed.

Lemma guess_or_soft_Some cols keywords test c :
  guess_or_soft cols keywords test = Some c ↔
  first_where (qualifies keywords) cols c ∨
  ((∀ c', c' ∈ cols → ¬ qualifies keywords c') ∧ first_where (passes test) cols c).
Proof.
  unfold guess_or_soft. rewrite <-!first_where_find, <-guess_column_find, <-soft_search_find.
  destruct (guess_column cols keywords) as [g|] eqn:Hg.
  - split; [by left|]. intros [?|[Hnone _]]; [done|].
    rewrite guess_column_find in Hg.
    destruct (list_find _ cols) as [[i x]|] eqn:Hf; [|done].
    apply list_find_Some in Hf as (Hi & Hq & _).
    destruct (Hnone x); [|done]. apply list_elem_of_lookup. eauto.
  - split; [|by intros [?|[_ ?]]]. intros Hs. right. split; [|done].
    rewrite guess_column_find, fmap_None, list_find_None, Forall_forall in Hg. done.
Qed.

Lemma guess_or_soft_elem cols keywords test c :
  guess_or_soft cols keywords test = Some c →
  c ∈ cols ∧ (qualifies keywords c ∨ passes test c).
Proof.
  intros [[? ?]%first_where_elem|[_ [? ?]%first_where_elem]]%guess_or_soft_Some; auto.
Qed.

End guessing.

(** X5: a role's guess is the first label that contains one of its keywords;
    only when no label does, it is the first label that passes the fallback
    test, so a label found by a keyword wins over an earlier label that only
    passes the fallback test; and there is no guess exactly when no label
    contains a keyword or passes the test. *)
Theorem guess_keyword_pass_first cols keywords test :
  (∀ c,
     guess_or_soft cols keywords test = Some c ↔
     first_where (qualifies keywords) cols c ∨
     ((∀ c', c' ∈ cols → ¬ qualifies keywords c') ∧ first_where (passes test) cols c)) ∧
  (guess_or_soft cols keywords test = None ↔
   ∀ c, c ∈ cols → ¬ qualifies keywords c ∧ ¬ passes test c) ∧
  guess_call_attempted cols = guess_or_soft cols call_attempted_keywords soft_call_attempted ∧
  guess_call_connected cols = guess_or_soft cols call_connected_keywords soft_call_connected ∧
  guess_wa_sent cols = guess_or_soft cols wa_sent_keywords soft_wa_sent ∧
  guess_wa_received cols = guess_or_soft cols wa_received_keywords soft_wa_received.
Proof.
  split_and!; [apply guess_or_soft_Some| |done..].
  unfold guess_or_soft. rewrite soft_search_find.
  destruct (guess_column cols keywords) as [g|] eqn:Hg.
  - split; [done|]. intros Hnone.
    rewrite guess_column_find in Hg.
    destruct (list_find _ cols) as [[i x]|] eqn:Hf; [|done].
    apply list_find_Some in Hf as (Hi & Hq & _).
    destruct (Hnone x) as [Hx _]; [|done]. apply list_elem_of_lookup. eauto.
  - rewrite guess_column_find, fmap_None, list_find_None, Forall_forall in Hg.
    rewrite fmap_None, list_find_None, Forall_forall. split.
    + intros Hs c Hc. split; [by apply Hg|by apply Hs].
    + intros Hall c Hc. by apply Hall.
Qed.

Lemma guess_keyword_pass_first_witness :
  first_where (qualifies wa_sent_keywords) ["WA reply"; "Msg Sent"] "Msg Sent" ∨
  ((∀ c', c' ∈ ["WA reply"; "Msg Sent"] → ¬ qualifies wa_sent_keywords c') ∧
   first_where (passes soft_wa_sent) ["WA reply"; "Msg Sent"] "Msg Sent").
Proof.
  apply (proj1 (guess_keyword_pass_first ["WA reply"; "Msg Sent"]
                  wa_sent_keywords soft_wa_sent)).
  reflexivity.
Defined.

Section guess_roles.

Lemma role_guess_label cols keywords test c :
  ¬ qualifies keywords unselected → ¬ passes test unselected →
  guess_or_soft cols keywords test = Some c → c ∈ cols ∧ c ≠ unselected.
Proof.
  intros Hq Hp [Hc Hor]%guess_or_soft_elem. split; [done|].
  intros ->. by destruct Hor.
Qed.

Lemma guesses_labels cols name g c :
  (name, g) ∈ guesses cols → g = Some c → c ∈ cols ∧ c ≠ unselected.
Proof.
  unfold guesses. rewrite !elem_of_cons, elem_of_nil.
  intros [[= -> ->]|[[= -> ->]|[[= -> ->]|[[= -> ->]|[]]]]];
    by apply role_guess_label.
Qed.

Lemma list_index_lookup cols g :
  g ∈ cols →
  ∃ i, list_index cols g = Some i ∧ cols !! i = Some g ∧ ∀ j, j < i → cols !! j ≠ Some g.
Proof.
  induction cols as [|c cols IH]; [by intros ?%elem_of_nil|].
  cbn [list_index]. destruct (decide (c = g)) as [->|Hne].
  - intros _. exists 0. split_and!; [done..|lia].
  - intros [?|Hin]%elem_of_cons; [congruence|].
    destruct (IH Hin) as (i & -> & Hi & Hfirst). exists (S i). split_and!; [done..|].
    intros [|j] Hj; cbn; [congruence|]. apply Hfirst. lia.
Qed.

Lemma selectbox_default_eq cols guess :
  selectbox (options cols) (default_index cols guess) =
    Some (match guess with
          | Some g => if bool_decide (g ∈ cols) then g else unselected
          | None => unselected
          end).
Proof.
  unfold selectbox, options, default_index. destruct guess as [g|]; [|done].
  case_bool_decide as Hin; [|done].
  destruct (list_index_lookup cols g Hin) as (i & -> & Hi & _).
  cbn. by rewrite Nat.add_1_r.
Qed.

Lemma selectbox_guess cols name g :
  (name, g) ∈ guesses cols →
  selectbox (options cols) (default_index cols g) = Some (default unselected g).
Proof.
  intros Hg. rewrite selectbox_default_eq. destruct g as [c|]; [|done].
  destruct (guesses_labels cols name (Some c) c Hg eq_refl) as [Hc _].
  by rewrite bool_decide_true.
Qed.

End guess_roles.

(** X6: whatever the labels are, each of the four guesses is one of the
    labels of the data set and is never the sentinel of the select boxes. *)
Theorem guess_is_a_label cols name g c :
  (name, g) ∈ guesses cols → g = Some c → c ∈ cols ∧ c ≠ unselected.
Proof. apply guesses_labels. Qed.

Lemma guess_is_a_label_witness :
  "Call made" ∈ ["Lead"; "Dial status"; "Call made"] ∧ "Call made" ≠ unselected.
Proof.
  apply (guess_is_a_label ["Lead"; "Dial status"; "Call made"] "Calls Attempted"
           (guess_call_attempted ["Lead"; "Dial status"; "Call made"])).
  - left.
  - reflexivity.
Defined.

(** X7: in the fallback search for the Calls Attempted column the test
    ["attempt" in n] never decides: "attempt" is one of the keywords, so the
    fallback runs only when no label contains it, and the guess is the one
    of the shorter test "call" with "dial" or "made". *)
Theorem fallback_attempt_never_decides cols :
  guess_call_attempted cols =
    guess_or_soft cols call_attempted_keywords
      (λ n, PyStr.contains n "call" && (PyStr.contains n "dial" || PyStr.contains n "made")).
Proof.
  unfold guess_call_attempted, guess_or_soft.
  destruct (guess_column cols call_attempted_keywords) eqn:Hg; [done|].
  rewrite guess_column_find, fmap_None, list_find_None, Forall_forall in Hg.
  apply soft_search_ext. intros c Hc. unfold soft_call_attempted.
  destruct (PyStr.contains (normalize c) "attempt") eqn:Ha; [|done].
  destruct (Hg c Hc). unfold qualifies, any_keyword_in, call_attempted_keywords.
  cbn [existsb]. rewrite Ha. by rewrite !orb_true_r.
Qed.

(** X8: a select box starts on the guess when the guess is one of the
    labels, and on the sentinel otherwise: the index [cols.index(guess) + 1]
    into the options, which begin with the sentinel, leads back to the guess,
    and the lookup of the index never fails. *)
Theorem selectbox_starts_on_guess cols guess :
  selectbox (options cols) (default_index cols guess) =
    Some (match guess with
          | Some g => if bool_decide (g ∈ cols) then g else unselected
          | None => unselected
          end).
Proof. apply selectbox_default_eq. Qed.

Lemma unselected_without_guess (l : list (string * option string)) :
  (∀ name g c, (name, g) ∈ l → g = Some c → c ≠ unselected) →
  (filter (λ p, p.2 = unselected) (prod_map id (default unselected) <$> l)).*1
  = (filter (λ p, p.2 = None) l).*1.
Proof.
  induction l as [|[name g] l IH]; intros Hl; [done|].
  assert (IH' := IH (λ name' g' c' Hin, Hl name' g' c' (list_elem_of_further _ _ _ Hin))).
  rewrite fmap_cons, !filter_cons. cbn [prod_map fst snd id].
  destruct g as [c|]; cbn [default from_option].
  - rewrite decide_False by (eapply Hl; [left|done]).
    by rewrite decide_False.
  - rewrite !decide_True by done. rewrite !fmap_cons. by rewrite IH'.
Qed.

(** X9: before the user touches them, the four select boxes hold the four
    guesses, with the sentinel where guessing found nothing; the roles the
    script then asks for are exactly the roles without a guess, in the order
    of the select boxes. *)
Theorem initial_selection_is_seeded cols :
  initial_selection cols = Some (seeded cols) ∧
  missing (seeded cols) = (filter (λ p, p.2 = None) (guesses cols)).*1.
Proof.
  split.
  - unfold initial_selection.
    rewrite (selectbox_guess cols "Calls Attempted" (guess_call_attempted cols))
      by (unfold guesses; repeat constructor).
    rewrite (selectbox_guess cols "Calls Connected" (guess_call_connected cols)) by (unfold guesses; repeat constructor).
    rewrite (selectbox_guess cols "WhatsApp Sent" (guess_wa_sent cols)) by (unfold guesses; repeat constructor).
    rewrite (selectbox_guess cols "WhatsApp Received" (guess_wa_received cols)) by (unfold guesses; repeat constructor).
    done.
  - unfold missing.
    change (required (seeded cols))
      with (prod_map id (default unselected) <$> guesses cols).
    apply unselected_without_guess. intros name g c Hg ->.
    by destruct (guesses_labels cols name (Some c) c Hg eq_refl).
Qed.

(** ** Columns of one dtype *)

Section typed_columns.
Import Numeric.

Lemma gt0_inject_Z n : gt0 (fillna0 (FFin (inject_Z n))) = bool_decide (0 < n)%Z.
Proof.
  cbn [gt0 fillna0]. unfold Qle_bool. cbn [Qnum Qden inject_Z].
  rewrite Z.mul_1_r. change (0 * 1)%Z with 0%Z.
  destruct (Z.leb_spec n 0) as [Hle|Hlt]; cbn [negb]; symmetry.
  - apply bool_decide_eq_false. lia.
  - apply bool_decide_eq_true. lia.
Qed.

Lemma gt0_fillna0 x : gt0 (fillna0 x) = gt0 x.
Proof. by destruct x. Qed.

Lemma existsb_notna_ints l :
  existsb notna (of_value <$> (VInt <$> l)) = bool_decide (l ≠ []).
Proof. by destruct l. Qed.

End typed_columns.

(** X10: on a column of dtype int64 the signal of a row is true exactly when
    its integer is greater than zero; zero and the negative integers are
    false. *)
Theorem int_column_signal l :
  to_bool_series (Int64Series l) = (λ n, bool_decide (0 < n)%Z) <$> l.
Proof.
  destruct l as [|n l]; [done|].
  rewrite to_bool_series_not_bool by done. cbn [cells].
  rewrite existsb_notna_ints, bool_decide_true by done.
  rewrite <-list_fmap_compose. apply list_fmap_ext. intros ? x _. apply gt0_inject_Z.
Qed.

(** X11: on a column of dtype float64 the signal of a row is true exactly
    when its float is greater than zero, the positive infinity included; NaN
    is false, also in a column that holds nothing but NaN, where the
    categorical rule is the one that runs. *)
Theorem float_column_signal l :
  to_bool_series (Float64Series l) = Numeric.gt0 <$> l ∧
  ∀ x, Numeric.gt0 x = true ↔ float_pos x.
Proof.
  split; [|intros x; by rewrite <-gt0_fillna0, gt0_spec].
  rewrite to_bool_series_not_bool by done. cbn [cells].
  destruct (existsb _ _) eqn:Hnum; rewrite <-list_fmap_compose.
  - apply list_fmap_ext. intros ? x _. apply gt0_fillna0.
  - apply Forall_fmap_ext_1, Forall_forall. intros x Hx.
    rewrite none_parses in Hnum.
    assert (Hp : parses (VFloat x) = false).
    { apply Hnum, list_elem_of_fmap. eauto. }
    by destruct x.
Qed.

(** X12: the signal column has one boolean per cell of the column it is
    read from, so over a well-formed data frame each of the four signals has
    as many rows as the data set. *)
Theorem signal_rows :
  (∀ s, length (to_bool_series s) = length (cells s)) ∧
  (∀ df label s,
     df_wf df → dict_get (df_columns df) label = Some s →
     length (to_bool_series s) = df_len df).
Proof. split; [apply to_bool_series_length|apply column_rows]. Qed.

Lemma signal_rows_witness :
  length (to_bool_series (Int64Series [1; 1; 1; 0]%Z)) = 4.
Proof.
  apply (proj2 signal_rows (example_df example_phone) "WaSent").
  - apply example_df_wf. reflexivity.
  - reflexivity.
Defined.

(** ** How a run of the script ends *)

Section outcomes.

(** The table of a run whose five columns are found, with the sums of the
    masks as the script computes them. *)
Lemma script_found df sel sca scc sws swr ph :
  df_empty df = false → missing sel = [] →
  dict_get (df_columns df) (col_call_attempted sel) = Some sca →
  dict_get (df_columns df) (col_call_connected sel) = Some scc →
  dict_get (df_columns df) (col_wa_sent sel) = Some sws →
  dict_get (df_columns df) (col_wa_received sel) = Some swr →
  dict_get (df_columns df) "Phone Number" = Some ph →
  ∃ t, script df sel = Done t ∧ t.*1 = hierarchy.*1.
Proof.
  intros He Hm Hca Hcc Hws Hwr Hph.
  unfold script, booleans, metrics, duplicate_leads, getitem.
  rewrite He, Hm, Hca, Hcc, Hws, Hwr, Hph.
  cbn [bind try_or_stop call_attempted call_connected wa_sent wa_received].
  rewrite segment_hierarchy_eval. eexists. split; [done|]. reflexivity.
Qed.

Lemma complete_iff df sel :
  complete df sel ↔
  missing sel = [] ∧
  col_call_attempted sel ∈ df_labels df ∧ col_call_connected sel ∈ df_labels df ∧
  col_wa_sent sel ∈ df_labels df ∧ col_wa_received sel ∈ df_labels df.
Proof.
  unfold complete. rewrite !Forall_cons, missing_nil. split.
  - intros ([? ?] & [? ?] & [? ?] & [? ?] & _). done.
  - intros ((? & ? & ? & ?) & ? & ? & ? & ?). by split_and!.
Qed.

Lemma label_of_dict_get df label s :
  dict_get (df_columns df) label = Some s → label ∈ df_labels df.
Proof.
  intros Hs%dict_get_elem. apply list_elem_of_fmap. by exists (label, s).
Qed.


Lemma script_Raised_inv df sel e :
  script df sel = Raised e →
  e = KeyError "Phone Number" ∧ ("Phone Number" ∉ df_labels df) ∧
  df_empty df = false ∧ complete df sel.
Proof.
  unfold script, booleans, metrics, duplicate_leads, getitem.
  destruct (df_empty df) eqn:He; [done|].
  destruct (missing sel) eqn:Hm; [|done].
  destruct (dict_get _ (col_call_attempted sel)) as [sca|] eqn:Hca; [|done].
  destruct (dict_get _ (col_call_connected sel)) as [scc|] eqn:Hcc; [|done].
  destruct (dict_get _ (col_wa_sent sel)) as [sws|] eqn:Hws; [|done].
  destruct (dict_get _ (col_wa_received sel)) as [swr|] eqn:Hwr; [|done].
  cbn [bind try_or_stop].
  destruct (dict_get _ "Phone Number") as [ph|] eqn:Hph.
  - cbn [bind]. by rewrite segment_hierarchy_eval.
  - cbn [bind]. intros [= <-]. split_and!; [done|by apply dict_get_None|done|].
    apply complete_iff. split_and!; [done|by eapply label_of_dict_get..].
Qed.

End outcomes.



(** X14: a table that the script shows has the twelve rows of the hierarchy,
    with their labels and indentation, in the fixed order that ends with
    Total Leads and Duplicate Leads. *)
Theorem table_rows_fixed df sel t :
  script df sel = Done t →
  t.*1 = hierarchy.*1 ∧ length t = 12.
Proof.
  intros Ht.
  destruct (script_done_inv _ _ _ Ht)
    as (He & Hm & sca & scc & sws & swr & ph & ? & ? & ? & ? & ?).
  destruct (script_found df sel sca scc sws swr ph) as (t' & Ht' & Hrows); try done.
  rewrite Ht in Ht'. injection Ht' as <-. split; [done|].
  by rewrite <-(length_fmap fst), Hrows.
Qed.

Lemma table_rows_fixed_witness :
  example_table.*1 = hierarchy.*1 ∧ length example_table = 12.
Proof.
  apply (table_rows_fixed (example_df example_phone) example_sel). reflexivity.
Defined.

(** X15: the one exception that can end a run is the [KeyError] of the
    column "Phone Number": a run that ends with an exception had a non-empty
    data set and a complete mapping, and the data set had no column "Phone
    Number"; a selected label that is not in the data set never raises. *)
Theorem only_identifier_raises df sel e :
  script df sel = Raised e →
  e = KeyError "Phone Number" ∧ ("Phone Number" ∉ df_labels df) ∧
  df_empty df = false ∧ complete df sel.
Proof. apply script_Raised_inv. Qed.

Lemma only_identifier_raises_witness :
  KeyError "Phone Number" = KeyError "Phone Number" ∧
  ("Phone Number" ∉ df_labels example_df_no_phone) ∧
  df_empty example_df_no_phone = false ∧ complete example_df_no_phone example_sel.
Proof.
  apply (only_identifier_raises example_df_no_phone example_sel). reflexivity.
Defined.

Section stops.

Lemma missing_elem sel name :
  name ∈ missing sel ↔ (name, unselected) ∈ required sel.
Proof.
  unfold missing. rewrite list_elem_of_fmap. split.
  - intros ([n c] & -> & [Hc Hin]%list_elem_of_filter). cbn in Hc. by subst c.
  - intros Hin. exists (name, unselected). split; [done|].
    by apply list_elem_of_filter.
Qed.

Lemma getitem_absent df c :
  absent df c → dict_get (df_columns df) c = None.
Proof. intros Hc. by apply dict_get_None. Qed.

Lemma getitem_present df c :
  ¬ absent df c → ∃ s, dict_get (df_columns df) c = Some s.
Proof.
  intros Hc. apply dict_get_label. unfold absent in Hc.
  by destruct (decide (c ∈ df_labels df)).
Qed.

End stops.

(** X16: an empty data set stops the page with the warning that the file
    seems to be empty, and nothing else does; on a non-empty data set the
    page stops with the warning "Please select: ..." exactly when a select
    box is still on the sentinel, whatever columns the data set has, and the
    warning names the roles of exactly those select boxes. *)
Theorem stops_with_warning df sel :
  (script df sel = Stopped (Warning "Your file seems to be empty.") ↔
   df_empty df = true) ∧
  (df_empty df = false →
   (script df sel = Stopped (Warning ("Please select: " +:+ join ", " (missing sel))) ↔
    missing sel ≠ [])) ∧
  (∀ name, name ∈ missing sel ↔ (name, unselected) ∈ required sel).
Proof.
  split_and!; [| |apply missing_elem].
  - split.
    + destruct (df_empty df) eqn:He; [done|]. unfold script. rewrite He.
      destruct (missing sel) eqn:Hm.
      * unfold booleans, metrics, duplicate_leads, getitem.
        repeat (destruct (dict_get _ _); cbn [bind try_or_stop]; try done).
      * intros Hs. vm_compute in Hs. discriminate Hs.
    + intros He. unfold script. by rewrite He.
  - intros He. unfold script. rewrite He. destruct (missing sel) eqn:Hm.
    + split; [|done]. unfold booleans, metrics, duplicate_leads, getitem.
      repeat (destruct (dict_get _ _); cbn [bind try_or_stop]; try done).
    + done.
Qed.

Lemma stops_with_warning_witness :
  script (example_df example_phone)
    {| col_call_attempted := "CallAttempted"; col_call_connected := unselected;
       col_wa_sent := "WaSent"; col_wa_received := unselected |}
  = Stopped (Warning "Please select: Calls Connected, WhatsApp Received").
Proof.
  apply (proj1 (proj2 (stops_with_warning (example_df example_phone)
    {| col_call_attempted := "CallAttempted"; col_call_connected := unselected;
       col_wa_sent := "WaSent"; col_wa_received := unselected |})));
    [reflexivity|discriminate].
Defined.

(** X17: with a non-empty data set and four selections made, a selected
    label that is not a column of the data set stops the page with an error
    message; the lookup failure is caught, so the run does not end with an
    exception and shows no table, whether or not the data set has the column
    "Phone Number". *)
Theorem absent_label_stops df sel c :
  df_empty df = false → missing sel = [] →
  c ∈ selected sel → absent df c →
  ∃ text, script df sel = Stopped (Error text).
Proof.
  intros He Hm Hc Habs. apply getitem_absent in Habs.
  unfold script, booleans, getitem. rewrite He, Hm.
  unfold selected in Hc. rewrite !elem_of_cons, elem_of_nil in Hc.
  destruct (dict_get _ (col_call_attempted sel)) as [sca|] eqn:Hca;
    cbn [bind try_or_stop]; [|by eexists].
  destruct (dict_get _ (col_call_connected sel)) as [scc|] eqn:Hcc;
    cbn [bind try_or_stop]; [|by eexists].
  destruct (dict_get _ (col_wa_sent sel)) as [sws|] eqn:Hws;
    cbn [bind try_or_stop]; [|by eexists].
  destruct (dict_get _ (col_wa_received sel)) as [swr|] eqn:Hwr;
    cbn [bind try_or_stop]; [|by eexists].
  destruct Hc as [->|[->|[->|[->|[]]]]]; congruence.
Qed.

Lemma absent_label_stops_witness :
  ∃ text,
    script example_df_no_phone
      {| col_call_attempted := "CallAttempted"; col_call_connected := "Connected";
         col_wa_sent := "Sent"; col_wa_received := "WaReceived" |}
    = Stopped (Error text).
Proof.
  apply (absent_label_stops example_df_no_phone
    {| col_call_attempted := "CallAttempted"; col_call_connected := "Connected";
       col_wa_sent := "Sent"; col_wa_received := "WaReceived" |} "Connected");
    [reflexivity..| |].
  - unfold selected. cbn. repeat constructor.
  - apply (bool_decide_unpack ("Connected" ∉ df_labels example_df_no_phone)). reflexivity.
Defined.

(** ** More on the counts *)

Section counts_more.

Lemma count_rows_bound n p : (count_rows n p ≤ n)%nat.
Proof.
  induction n as [|n IH]; [done|]. rewrite count_rows_S. destruct (p n); lia.
Qed.

Lemma either_split n (c r : nat → bool) :
  count_rows n (λ i, c i || r i) =
  count_rows n (λ i, c i && negb (r i)) + count_rows n (λ i, r i && negb (c i))
  + count_rows n (λ i, c i && r i).
Proof.
  induction n as [|k IH]; [done|]. rewrite !count_rows_S.
  destruct (c k), (r k); cbn [andb orb negb]; lia.
Qed.

Lemma count_rows_pos n p i : i < n → p i = true → (1 ≤ count_rows n p)%nat.
Proof.
  induction n as [|n IH]; [lia|]. intros Hi Hp. rewrite count_rows_S.
  destruct (decide (i = n)) as [->|Hne]; [rewrite Hp; lia|].
  specialize (IH ltac:(lia) Hp). lia.
Qed.

Lemma count_rows_two n p i j :
  i < n → j < n → i ≠ j → p i = true → p j = true → (2 ≤ count_rows n p)%nat.
Proof.
  induction n as [|n IH]; [lia|]. intros Hi Hj Hij Hpi Hpj. rewrite count_rows_S.
  destruct (decide (i = n)) as [->|Hin].
  - rewrite Hpi. pose proof (count_rows_pos n p j ltac:(lia) Hpj). lia.
  - destruct (decide (j = n)) as [->|Hjn].
    + rewrite Hpj. pose proof (count_rows_pos n p i ltac:(lia) Hpi). lia.
    + specialize (IH ltac:(lia) ltac:(lia) Hij Hpi Hpj). lia.
Qed.

Lemma count_rows_zero n p : count_rows n p = 0 ↔ ∀ i, i < n → p i = false.
Proof.
  split.
  - intros H0 i Hi. destruct (p i) eqn:Hp; [|done].
    pose proof (count_rows_pos n p i Hi Hp). lia.
  - intros Hall. induction n as [|n IH]; [done|].
    rewrite count_rows_S, (Hall n) by lia. rewrite IH; [done|]. intros i ?. apply Hall. lia.
Qed.

Lemma count_rows_pos_inv n p : (1 ≤ count_rows n p)%nat → ∃ i, i < n ∧ p i = true.
Proof.
  induction n as [|n IH]; [cbn; lia|]. rewrite count_rows_S.
  destruct (p n) eqn:Hp; [intros _; exists n; split; [lia|done]|].
  intros Hc. destruct IH as (i & ? & ?); [lia|]. exists i. split; [lia|done].
Qed.

Lemma Shared_partner vals i :
  Shared vals i → ∃ j, j ≠ i ∧ j < length vals ∧ i < length vals ∧ Shared vals j.
Proof.
  intros (j & vi & vj & Hji & Hi & Hj & Heq). exists j.
  split_and!; [done|by eapply lookup_lt_Some..|].
  exists i, vj, vi. split_and!; [done..|by apply val_eqb_sym].
Qed.

Lemma duplicates_not_one vals : s_sum (duplicated vals) ≠ 1.
Proof.
  rewrite duplicates_count. intros H1.
  destruct (count_rows_pos_inv (length vals) (shares_value vals)) as (i & Hi & Hs);
    [lia|].
  destruct (Shared_partner vals i) as (j & Hji & Hj & _ & Hsj);
    [by apply shares_value_spec|].
  apply shares_value_spec in Hsj.
  pose proof (count_rows_two _ _ i j Hi Hj (not_eq_sym Hji) Hs Hsj). lia.
Qed.

End counts_more.

(** X18: in a table that the script shows, Connected by Either is the sum of
    its three children in the hierarchy: Only Connected on Calls, Only
    Connected on WhatsApp and Connected on Both. *)
Theorem either_is_sum_of_children df sel t :
  df_wf df → script df sel = Done t →
  ∃ either only_calls only_whatsapp both,
    dict_get t "Leads Connected by Either WhatsApp or Call (Connectivity)" = Some either ∧
    dict_get t "  Only Connected on Calls" = Some only_calls ∧
    dict_get t "  Only Connected on WhatsApp" = Some only_whatsapp ∧
    dict_get t "  Leads Connected on Both WhatsApp and Call" = Some both ∧
    either = only_calls + only_whatsapp + both.
Proof.
  intros Hwf Ht.
  destruct (script_done_inv _ _ _ Ht)
    as (He & Hm & sca & scc & sws & swr & ph & ? & ? & ? & ? & ?).
  rewrite (script_table df sel sca scc sws swr ph) in Ht by done.
  injection Ht as <-. unfold spec_table.
  do 4 eexists. split_and!; [reflexivity..|apply either_split].
Qed.

Lemma either_is_sum_of_children_witness :
  ∃ either only_calls only_whatsapp both,
    dict_get example_table "Leads Connected by Either WhatsApp or Call (Connectivity)"
      = Some either ∧
    dict_get example_table "  Only Connected on Calls" = Some only_calls ∧
    dict_get example_table "  Only Connected on WhatsApp" = Some only_whatsapp ∧
    dict_get example_table "  Leads Connected on Both WhatsApp and Call" = Some both ∧
    either = only_calls + only_whatsapp + both.
Proof.
  apply (either_is_sum_of_children (example_df example_phone) example_sel example_table).
  - apply example_df_wf. reflexivity.
  - reflexivity.
Defined.

(** X19: in a table that the script shows over a well-formed data frame, no
    count exceeds the number of rows of the data set: the ten segments, Total
    Leads and Duplicate Leads are all at most Total Leads. *)
Theorem counts_at_most_total df sel t :
  df_wf df → script df sel = Done t →
  Forall (λ r, (r.2 ≤ df_len df)%nat) t ∧ dict_get t "Total Leads" = Some (df_len df).
Proof.
  intros Hwf Ht.
  destruct (script_done_inv _ _ _ Ht)
    as (He & Hm & sca & scc & sws & swr & ph & ? & ? & ? & ? & Hph).
  rewrite (script_table df sel sca scc sws swr ph) in Ht by done.
  injection Ht as <-. unfold spec_table. split; [|reflexivity].
  repeat (apply Forall_cons_2; [apply count_rows_bound|]).
  apply Forall_cons_2; [done|]. apply Forall_cons_2; [|apply Forall_nil_2].
  cbn [snd]. rewrite duplicates_count.
  destruct Hwf as [_ Hlen]. rewrite Forall_forall in Hlen.
  rewrite <-(Hlen _ (dict_get_elem _ _ _ Hph)). apply count_rows_bound.
Qed.

Lemma counts_at_most_total_witness :
  Forall (λ r, (r.2 ≤ 4)%nat) example_table ∧ dict_get example_table "Total Leads" = Some 4.
Proof.
  apply (counts_at_most_total (example_df example_phone) example_sel example_table).
  - apply example_df_wf. reflexivity.
  - reflexivity.
Defined.

(** X20: Duplicate Leads is never 1: a row that shares its value shares it
    with another row, which is counted too. *)
Theorem duplicate_leads_never_one df : duplicate_leads df ≠ Done 1.
Proof.
  unfold duplicate_leads, getitem.
  destruct (dict_get _ _) as [ph|]; cbn [bind]; [|done].
  intros [= H1]. by apply duplicates_not_one in H1.
Qed.

Lemma duplicate_leads_never_one_witness : duplicate_leads phone_df ≠ Done 1.
Proof. apply (duplicate_leads_never_one phone_df). Defined.

(** X21: Duplicate Leads is 0 exactly when the data set has the column
    "Phone Number" and no two rows of it hold equal values. *)
Theorem duplicate_leads_zero_iff df :
  duplicate_leads df = Done 0 ↔
  ∃ ph, dict_get (df_columns df) "Phone Number" = Some ph ∧
        ∀ i j vi vj, i ≠ j → cells ph !! i = Some vi → cells ph !! j = Some vj →
                     val_eqb vi vj = false.
Proof.
  unfold duplicate_leads, getitem.
  destruct (dict_get _ _) as [ph|]; cbn [bind]; [|by split; [|intros (? & ? & _)]].
  rewrite duplicates_count. split.
  - intros [= H0]. exists ph. split; [done|]. intros i j vi vj Hij Hi Hj.
    rewrite count_rows_zero in H0.
    destruct (val_eqb vi vj) eqn:Heq; [|done].
    rewrite <-(H0 i) by by eapply lookup_lt_Some.
    symmetry. apply shares_value_spec. by exists j, vi, vj.
  - intros (ph' & [= <-] & Hdistinct). f_equal. apply count_rows_zero.
    intros i Hi. apply not_true_is_false.
    intros (j & vi & vj & Hji & Hvi & Hvj & Heq)%shares_value_spec.
    by rewrite (Hdistinct i j vi vj) in Heq.
Qed.

Lemma duplicate_leads_zero_iff_witness :
  ∃ ph, dict_get (df_columns distinct_phone_df) "Phone Number" = Some ph ∧
        ∀ i j vi vj, i ≠ j → cells ph !! i = Some vi → cells ph !! j = Some vj →
                     val_eqb vi vj = false.
Proof. apply (proj1 (duplicate_leads_zero_iff distinct_phone_df)). reflexivity. Defined.

Section groups.

Lemma count_rows_filter (f : value → bool) l :
  count_rows (length l) (λ i, from_option f false (l !! i))
  = length (filter (λ v, f v = true) l).
Proof.
  induction l as [|x l IH] using rev_ind; [done|].
  rewrite length_app, Nat.add_1_r, count_rows_S, filter_app, length_app, <-IH.
  rewrite list_lookup_middle by done. cbn [from_option]. f_equal.
  - apply count_rows_ext. intros i Hi. by rewrite lookup_app_l.
  - rewrite filter_cons, filter_nil. by destruct (f x); case_decide.
Qed.

Lemma filter_nonempty {A} (P : A → Prop) `{∀ x, Decision (P x)} l :
  (1 ≤ length (filter P l))%nat ↔ ∃ w, w ∈ l ∧ P w.
Proof.
  split.
  - destruct (filter P l) as [|w k] eqn:Hf; [cbn; lia|]. intros _.
    assert (Hw : w ∈ filter P l) by (rewrite Hf; left).
    apply list_elem_of_filter in Hw as [? ?]. eauto.
  - intros (w & Hw & HP).
    assert (Hin : w ∈ filter P l) by by apply list_elem_of_filter.
    destruct (filter P l); [by apply elem_of_nil in Hin|cbn; lia].
Qed.

Lemma Shared_middle l1 v l2 :
  Shared (l1 ++ v :: l2) (length l1) ↔ ∃ w, w ∈ (l1 ++ l2)%list ∧ val_eqb v w = true.
Proof.
  split.
  - intros (j & vi & vj & Hji & Hi & Hj & Heq).
    rewrite list_lookup_middle in Hi by done. injection Hi as <-.
    exists vj. split; [|done]. apply elem_of_app.
    apply lookup_app_Some in Hj as [Hj|[Hge Hj]].
    + left. apply list_elem_of_lookup. eauto.
    + right. destruct (j - length l1) as [|k] eqn:Hk; [lia|].
      cbn in Hj. apply list_elem_of_lookup. eauto.
  - intros (w & [Hw|Hw]%elem_of_app & Heq).
    + apply list_elem_of_lookup in Hw as [j Hj].
      pose proof (lookup_lt_Some _ _ _ Hj). exists j, v, w.
      split_and!; [lia|by apply list_lookup_middle|by apply lookup_app_l_Some|done].
    + apply list_elem_of_lookup in Hw as [k Hk].
      exists (length l1 + S k), v, w.
      split_and!; [lia|by apply list_lookup_middle| |done].
      rewrite lookup_app_r by lia.
      replace (length l1 + S k - length l1) with (S k) by lia. done.
Qed.

Lemma group_size_middle l1 v l2 :
  group_size (l1 ++ v :: l2) v = S (group_size (l1 ++ l2) v).
Proof.
  unfold group_size. rewrite !filter_app, filter_cons.
  rewrite decide_True by apply val_eqb_refl. rewrite !length_app. cbn. lia.
Qed.

Lemma shares_group vals i v :
  vals !! i = Some v →
  shares_value vals i = bool_decide (2 ≤ group_size vals v)%nat.
Proof.
  intros Hi. pose proof (lookup_lt_Some _ _ _ Hi) as Hlt.
  assert (Hsplit := take_drop_middle vals i v Hi).
  assert (Hlen : length (take i vals) = i) by (rewrite length_take; lia).
  clear Hi Hlt. revert Hsplit Hlen.
  generalize (take i vals) (drop (S i) vals). intros l1 l2 <- <-.
  rewrite group_size_middle.
  destruct (shares_value _ _) eqn:Hs; symmetry.
  - apply bool_decide_eq_true. apply shares_value_spec, Shared_middle in Hs.
    apply (filter_nonempty (λ w, val_eqb v w = true)) in Hs. unfold group_size. lia.
  - apply bool_decide_eq_false. intros Hge.
    assert (Hsh : shares_value (l1 ++ v :: l2) (length l1) = true); [|congruence].
    apply shares_value_spec, Shared_middle.
    apply (filter_nonempty (λ w, val_eqb v w = true)). unfold group_size in Hge. lia.
Qed.

Lemma duplicates_group vals :
  s_sum (duplicated vals)
  = length (filter (λ v, (2 ≤ group_size vals v)%nat) vals).
Proof.
  rewrite duplicates_count.
  rewrite (count_rows_ext _ _
    (λ i, from_option (λ v, bool_decide (2 ≤ group_size vals v)%nat) false (vals !! i))).
  - rewrite count_rows_filter. f_equal. apply list_filter_iff.
    intros v. apply bool_decide_eq_true.
  - intros i Hi. destruct (lookup_lt_is_Some_2 vals i Hi) as [v Hv].
    rewrite Hv. cbn. by apply shares_group.
Qed.

Lemma group_size_Permutation vals vals' v :
  vals ≡ₚ vals' → group_size vals v = group_size vals' v.
Proof. intros Hp. unfold group_size. by rewrite Hp. Qed.

Lemma duplicates_Permutation vals vals' :
  vals ≡ₚ vals' → s_sum (duplicated vals) = s_sum (duplicated vals').
Proof.
  intros Hp. rewrite !duplicates_group.
  rewrite (list_filter_iff _ (λ v, (2 ≤ group_size vals' v)%nat)).
  - by rewrite Hp.
  - intros v. by rewrite (group_size_Permutation vals vals' v Hp).
Qed.

End groups.

(** X22: Duplicate Leads is the number of rows whose value occurs in two or
    more rows of the column, and it does not depend on the order of the
    rows: a column with the same cells in another order gives the same
    count. *)
Theorem duplicates_by_group_size :
  (∀ vals,
     s_sum (duplicated vals)
     = length (filter (λ v, (2 ≤ group_size vals v)%nat) vals)) ∧
  (∀ vals vals', vals ≡ₚ vals' → s_sum (duplicated vals) = s_sum (duplicated vals')).
Proof.
  split; [apply duplicates_group|apply duplicates_Permutation].
Qed.

Lemma duplicates_by_group_size_witness :
  s_sum (duplicated [VStr "555-1"; VStr "555-2"; VStr "555-1"])
  = s_sum (duplicated [VStr "555-2"; VStr "555-1"; VStr "555-1"]).
Proof.
  apply (proj2 duplicates_by_group_size).
  apply (Permutation_swap (VStr "555-2") (VStr "555-1") [VStr "555-1"]).
Defined.

(** ** The order of the rows *)

Section row_order.

Lemma omap_ext_in {A B} (f g : A → option B) (l : list A) :
  (∀ x, x ∈ l → f x = g x) → omap f l = omap g l.
Proof.
  induction l as [|x l IH]; intros Hfg; [done|]. cbn [omap list_omap].
  rewrite (Hfg x) by left. rewrite IH; [done|]. intros y ?. apply Hfg. by right.
Qed.

Lemma reorder_seq {A} (l : list A) : reorder (seq 0 (length l)) l = l.
Proof.
  unfold reorder. induction l as [|x l IH] using rev_ind; [done|].
  rewrite length_app, Nat.add_1_r, seq_S, omap_app. cbn [omap list_omap plus].
  rewrite list_lookup_middle by done. f_equal.
  rewrite <-IH at 2. apply omap_ext_in. intros i Hi%elem_of_seq.
  rewrite lookup_app_l by lia. done.
Qed.

Lemma reorder_Permutation {A} σ (l : list A) :
  σ ≡ₚ seq 0 (length l) → reorder σ l ≡ₚ l.
Proof. intros Hσ. unfold reorder. rewrite Hσ. by rewrite (reorder_seq l) at 1. Qed.

Lemma reorder_fmap {A B} (f : A → B) σ (l : list A) :
  reorder σ (f <$> l) = f <$> reorder σ l.
Proof.
  unfold reorder. rewrite list_fmap_omap. apply omap_ext_in.
  intros i _. by rewrite list_lookup_fmap.
Qed.

Lemma reorder_row σ (m : list bool) k i :
  Forall (λ i, i < length m) σ → σ !! k = Some i →
  row (reorder σ m) k = row m i.
Proof.
  unfold row, reorder. intros Hσ. revert k.
  induction Hσ as [|i0 σ Hi0 Hσ IH]; intros k Hk; [done|].
  destruct (lookup_lt_is_Some_2 m i0 Hi0) as [x Hx].
  cbn [omap list_omap]. rewrite Hx. destruct k as [|k]; cbn in *.
  - injection Hk as <-. by rewrite Hx.
  - by apply IH.
Qed.

Lemma existsb_Permutation {A} (p : A → bool) l l' :
  l ≡ₚ l' → existsb p l = existsb p l'.
Proof.
  induction 1 as [|x l l' _ IH|x y l|l l' l'' _ IH1 _ IH2]; cbn [existsb].
  - done.
  - by rewrite IH.
  - by destruct (p x), (p y).
  - by rewrite IH1.
Qed.

Lemma perm_in_range σ n : σ ≡ₚ seq 0 n → Forall (λ i, i < n) σ.
Proof.
  intros Hσ. apply Forall_forall. intros i Hi. rewrite Hσ in Hi.
  apply elem_of_seq in Hi. lia.
Qed.

Lemma cells_reorder σ s : cells (s_reorder σ s) = reorder σ (cells s).
Proof. destruct s; cbn [cells s_reorder]; by rewrite ?reorder_fmap. Qed.

Lemma to_bool_series_reorder σ s :
  σ ≡ₚ seq 0 (length (cells s)) →
  to_bool_series (s_reorder σ s) = reorder σ (to_bool_series s).
Proof.
  intros Hσ. destruct (dtype_is_bool s) eqn:Hb.
  { by destruct s. }
  rewrite !to_bool_series_not_bool by by destruct s.
  rewrite cells_reorder.
  rewrite (existsb_Permutation _ (Numeric.of_value <$> reorder σ (cells s))
             (Numeric.of_value <$> cells s))
    by by rewrite reorder_Permutation.
  destruct (existsb _ _); by rewrite reorder_fmap.
Qed.

Lemma count_rows_list {A} (f : A → bool) (l : list A) :
  count_rows (length l) (λ i, from_option f false (l !! i))
  = length (filter (λ v, f v = true) l).
Proof.
  induction l as [|x l IH] using rev_ind; [done|].
  rewrite length_app, Nat.add_1_r, count_rows_S, filter_app, length_app, <-IH.
  rewrite list_lookup_middle by done. cbn [from_option]. f_equal.
  - apply count_rows_ext. intros i Hi. by rewrite lookup_app_l.
  - rewrite filter_cons, filter_nil. by destruct (f x); case_decide.
Qed.

(** Counting the rows in another order counts the same rows. *)
Lemma count_rows_reindex σ n q :
  σ ≡ₚ seq 0 n →
  count_rows n (λ k, from_option q false (σ !! k)) = count_rows n q.
Proof.
  intros Hσ.
  assert (Hn : length σ = n) by by rewrite Hσ, length_seq.
  rewrite <-Hn at 1. rewrite count_rows_list. unfold count_rows.
  by rewrite Hσ.
Qed.

End row_order.

Section reordered_frame.
Context (σ : list nat) (df : DataFrame).
Hypothesis Hwf : df_wf df.
Hypothesis Hσ : σ ≡ₚ seq 0 (df_len df).

Lemma dict_get_reorder label :
  dict_get (df_columns (df_reorder σ df)) label
  = s_reorder σ <$> dict_get (df_columns df) label.
Proof.
  cbn [df_reorder df_columns]. induction (df_columns df) as [|[k s] cols IH]; [done|].
  cbn [fmap list_fmap prod_map fst snd id dict_get]. by case_decide.
Qed.

Lemma df_reorder_empty : df_empty (df_reorder σ df) = df_empty df.
Proof. unfold df_empty. cbn [df_reorder df_len df_columns]. by destruct (df_columns df). Qed.

Lemma column_perm label s :
  dict_get (df_columns df) label = Some s → σ ≡ₚ seq 0 (length (cells s)).
Proof.
  intros Hs%dict_get_elem. destruct Hwf as [_ Hlen]. rewrite Forall_forall in Hlen.
  specialize (Hlen _ Hs). cbn in Hlen. by rewrite Hlen.
Qed.

Lemma df_reorder_wf : df_wf (df_reorder σ df).
Proof.
  destruct Hwf as [Hnd Hlen]. split.
  - unfold df_labels in *. cbn [df_reorder df_columns].
    rewrite <-list_fmap_compose.
    by rewrite (list_fmap_ext (fst ∘ prod_map id (s_reorder σ)) fst (df_columns df))
      by by intros ? [? ?].
  - cbn [df_reorder df_columns df_len]. apply Forall_fmap, Forall_forall.
    intros [k s] Hin. cbn. rewrite cells_reorder.
    rewrite Forall_forall in Hlen. specialize (Hlen _ Hin). cbn in Hlen.
    rewrite <-Hlen. apply Permutation_length, reorder_Permutation. by rewrite Hlen.
Qed.

Lemma signal_reorder label k i :
  σ !! k = Some i → signal (df_reorder σ df) label k = signal df label i.
Proof.
  intros Hk. unfold signal. rewrite dict_get_reorder.
  destruct (dict_get (df_columns df) label) as [s|] eqn:Hs; [|done]. cbn [fmap option_fmap option_map].
  rewrite to_bool_series_reorder by by eapply column_perm.
  apply reorder_row; [|done].
  rewrite (column_rows df label s Hwf Hs). by apply perm_in_range.
Qed.

Lemma count_reordered (P : bool → bool → bool → bool → bool) l1 l2 l3 l4 :
  count_rows (df_len df)
    (λ k, P (signal (df_reorder σ df) l1 k) (signal (df_reorder σ df) l2 k)
            (signal (df_reorder σ df) l3 k) (signal (df_reorder σ df) l4 k))
  = count_rows (df_len df)
      (λ i, P (signal df l1 i) (signal df l2 i) (signal df l3 i) (signal df l4 i)).
Proof.
  rewrite <-(count_rows_reindex σ (df_len df)
               (λ i, P (signal df l1 i) (signal df l2 i) (signal df l3 i) (signal df l4 i)))
    by done.
  apply count_rows_ext. intros k Hk.
  destruct (lookup_lt_is_Some_2 σ k) as [i Hi].
  { by rewrite Hσ, length_seq. }
  rewrite Hi. cbn [from_option]. by rewrite !(signal_reorder _ k i Hi).
Qed.

Lemma spec_table_reorder l1 l2 l3 l4 dup :
  spec_table (df_len df) (signal (df_reorder σ df) l1) (signal (df_reorder σ df) l2)
    (signal (df_reorder σ df) l3) (signal (df_reorder σ df) l4) dup
  = spec_table (df_len df) (signal df l1) (signal df l2) (signal df l3) (signal df l4) dup.
Proof.
  unfold spec_table.
  rewrite (count_reordered (λ a c s r, c || r) l1 l2 l3 l4).
  rewrite (count_reordered (λ a c s r, c && negb r) l1 l2 l3 l4).
  rewrite (count_reordered (λ a c s r, c && s && negb r) l1 l2 l3 l4).
  rewrite (count_reordered (λ a c s r, r && negb c) l1 l2 l3 l4).
  rewrite (count_reordered (λ a c s r, c && r) l1 l2 l3 l4).
  rewrite (count_reordered (λ a c s r, negb a && negb s) l1 l2 l3 l4).
  rewrite (count_reordered (λ a c s r, negb a) l1 l2 l3 l4).
  rewrite (count_reordered (λ a c s r, negb a && s) l1 l2 l3 l4).
  rewrite (count_reordered (λ a c s r, negb s) l1 l2 l3 l4).
  rewrite (count_reordered (λ a c s r, a && negb s) l1 l2 l3 l4).
  done.
Qed.

Lemma script_reorder sel : script (df_reorder σ df) sel = script df sel.
Proof.
  destruct (df_empty df) eqn:He.
  { unfold script. by rewrite df_reorder_empty, He. }
  destruct (missing sel) eqn:Hm.
  2:{ unfold script. by rewrite df_reorder_empty, He, Hm. }
  destruct (dict_get (df_columns df) (col_call_attempted sel)) as [sca|] eqn:Hca;
  destruct (dict_get (df_columns df) (col_call_connected sel)) as [scc|] eqn:Hcc;
  destruct (dict_get (df_columns df) (col_wa_sent sel)) as [sws|] eqn:Hws;
  destruct (dict_get (df_columns df) (col_wa_received sel)) as [swr|] eqn:Hwr;
  destruct (dict_get (df_columns df) "Phone Number") as [ph|] eqn:Hph;
  try (unfold script, booleans, metrics, duplicate_leads, getitem;
       rewrite df_reorder_empty, !dict_get_reorder, He, Hm, ?Hca, ?Hcc, ?Hws, ?Hwr, ?Hph;
       reflexivity).
  rewrite (script_table df sel sca scc sws swr ph) by done.
  rewrite (script_table (df_reorder σ df) sel (s_reorder σ sca) (s_reorder σ scc)
             (s_reorder σ sws) (s_reorder σ swr) (s_reorder σ ph));
    [|apply df_reorder_wf|by rewrite df_reorder_empty|done
     |rewrite dict_get_reorder; by rewrite ?Hca, ?Hcc, ?Hws, ?Hwr, ?Hph..].
  cbn [df_reorder df_len]. rewrite spec_table_reorder. do 2 f_equal.
  rewrite cells_reorder. apply duplicates_Permutation, reorder_Permutation.
  by eapply column_perm.
Qed.

End reordered_frame.

(** X23: the order of the rows does not matter: over a well-formed data
    frame, the script ends in the same way, with the same table, warning or
    exception, when the rows of the data set are put in another order. *)
Theorem row_order_irrelevant σ df sel :
  df_wf df → σ ≡ₚ seq 0 (df_len df) →
  script (df_reorder σ df) sel = script df sel.
Proof. intros Hwf Hσ. by apply script_reorder. Qed.

Lemma row_order_irrelevant_witness :
  script (df_reorder [2; 0; 3; 1] (example_df example_phone)) example_sel
  = script (example_df example_phone) example_sel.
Proof.
  apply row_order_irrelevant.
  - apply example_df_wf. reflexivity.
  - apply (bool_decide_unpack ([2; 0; 3; 1] ≡ₚ seq 0 4)). reflexivity.
Defined.
